(** * Eligibility-App: the page script [static/js/script.js]

    The script is jQuery glue run on the document-ready event.  It binds five
    event handlers and runs one initialisation loop over the tables of the
    page.  This development embeds

    - the document as a tree of elements addressed by child-index paths,
    - the part of the jQuery / DOM / DataTables interface the script calls,
      as functions of a state-and-exception monad over the document and
      the list of alerts shown so far,
    - the body of every handler, written call by call as in the script,

    and proves the properties of the handlers stated in the specification.

    Strings are Rocq strings.  Lower-casing maps the ASCII letters and
    leaves every other character alone; that is all the comparisons
    against the literals "xlsx", "xls", "file" and "submit" can observe.
    Upper-casing, whose result the script writes to the page, and the
    sanitization of assigned values are the browser's: the handlers take
    them from a [Platform]. *)

From Stdlib Require Import Ascii String QArith.
From stdpp Require Import base strings list gmap.

Local Open Scope string_scope.
Local Open Scope list_scope.

(** ** JavaScript strings and arrays *)

Definition upper_ascii (c : ascii) : ascii :=
  let n := N_of_ascii c in
  if ((97 <=? n) && (n <=? 122))%N then ascii_of_N (n - 32) else c.

Definition lower_ascii (c : ascii) : ascii :=
  let n := N_of_ascii c in
  if ((65 <=? n) && (n <=? 90))%N then ascii_of_N (n + 32) else c.

Fixpoint map_string (f : ascii → ascii) (s : string) : string :=
  match s with
  | EmptyString => EmptyString
  | String c s' => String (f c) (map_string f s')
  end.

(** [String.prototype.toLowerCase], and the upper-casing of the ASCII
    letters, with which the sample platform below runs the handlers. *)
Definition toLowerCase (s : string) : string := map_string lower_ascii s.
Definition ascii_toUpperCase (s : string) : string := map_string upper_ascii s.

(** [String.prototype.split] with a one-character separator: the pieces
    between the separators, in order; never the empty array. *)
Fixpoint split (sep : ascii) (s : string) : list string :=
  match s with
  | EmptyString => [EmptyString]
  | String c s' =>
      if Ascii.eqb c sep then EmptyString :: split sep s'
      else match split sep s' with
           | [] => [String c EmptyString]
           | w :: ws => String c w :: ws
           end
  end.

(** [Array.prototype.pop], as far as its result goes: the last element, or
    [undefined] for the empty array. *)
Definition pop (l : list string) : option string := last l.

(** [Array.prototype.indexOf]: the first index holding [x], or [-1]. *)
Fixpoint indexOf (l : list string) (x : string) : Z :=
  match l with
  | [] => (-1)%Z
  | y :: l' =>
      if String.eqb y x then 0%Z
      else let i := indexOf l' x in if (i =? -1)%Z then (-1)%Z else (i + 1)%Z
  end.

(** ** The document *)

(** The [File] objects of a file input: name and size in bytes. *)
Module File.
Record t := mk { name : string; size : N }.
End File.

(** A cell of the [lengthMenu] option: a number or a label. *)
Inductive MenuCell := Num (z : Z) | Label (s : string).

(** The options object passed to [DataTable]. *)
Record DTOptions := mkDTOptions {
  pageLength : Z;
  lengthMenu : list (list MenuCell);
  responsive : bool
}.

(** An element: its tag, its attributes other than [class], the tokens of
    its [class] attribute in order, and the properties the script reads or
    writes.  [dataTables] holds the options of every [DataTable] call made
    on the element, oldest first. *)
Record Elem := mkElem {
  tag : string;
  attrs : gmap string string;
  classes : list string;
  disabled : bool;
  value : string;
  files : list File.t;
  dataTables : list DTOptions
}.

#[local] Unset Elimination Schemes.
Inductive Node :=
| Text (s : string)
| El (e : Elem) (kids : list Node).
#[local] Set Elimination Schemes.

(** A node is addressed from the root by the child indices leading to it. *)
Definition path := list nat.

Fixpoint node_at (d : Node) (p : path) : option Node :=
  match p with
  | [] => Some d
  | i :: p' =>
      match d with
      | Text _ => None
      | El _ kids => k ← kids !! i; node_at k p'
      end
  end.

Definition elem_of_node (n : Node) : option Elem :=
  match n with Text _ => None | El e _ => Some e end.

Definition elem_at (d : Node) (p : path) : option Elem :=
  node_at d p ≫= elem_of_node.

(** [imap_from f i l] applies [f] to the elements of [l] and their
    positions, counted from [i]. *)
Definition imap_from {A B} (f : nat → A → B) : nat → list A → list B :=
  fix go i l :=
    match l with
    | [] => []
    | x :: l' => f i x :: go (S i) l'
    end.

(** Rewrites every element with [f], which is given the element's path. *)
Fixpoint map_elems (f : path → Elem → Elem) (d : Node) : Node :=
  match d with
  | Text s => Text s
  | El e kids =>
      El (f [] e) (imap_from (λ i k, map_elems (λ q, f (i :: q)) k) 0 kids)
  end.

(** Replaces the children of every element whose path is selected.  The
    old children of such an element leave the document, so there is
    nothing to do below it. *)
Fixpoint replace_kids (sel : path → bool) (new : list Node) (d : Node) : Node :=
  match d with
  | Text s => Text s
  | El e kids =>
      if sel [] then El e new
      else El e (imap_from (λ i k, replace_kids (λ q, sel (i :: q)) new k) 0 kids)
  end.

(** The paths of the elements satisfying [pred], in document order. *)
Fixpoint select (pred : Elem → bool) (d : Node) : list path :=
  match d with
  | Text _ => []
  | El e kids =>
      (if pred e then [[]] else [])
      ++ concat (imap_from (λ i k, (i ::.) <$> select pred k) 0 kids)
  end.

(** The same below the root only. *)
Definition select_below (pred : Elem → bool) (d : Node) : list path :=
  match d with
  | Text _ => []
  | El _ kids => concat (imap_from (λ i k, (i ::.) <$> select pred k) 0 kids)
  end.

(** ** Elements: classes, attributes, properties *)

Definition with_classes (cs : list string) (e : Elem) : Elem :=
  mkElem (tag e) (attrs e) cs (disabled e) (value e) (files e) (dataTables e).
Definition with_attrs (m : gmap string string) (e : Elem) : Elem :=
  mkElem (tag e) m (classes e) (disabled e) (value e) (files e) (dataTables e).
Definition with_disabled (b : bool) (e : Elem) : Elem :=
  mkElem (tag e) (attrs e) (classes e) b (value e) (files e) (dataTables e).
Definition with_value (v : string) (e : Elem) : Elem :=
  mkElem (tag e) (attrs e) (classes e) (disabled e) v (files e) (dataTables e).
Definition with_files (fs : list File.t) (e : Elem) : Elem :=
  mkElem (tag e) (attrs e) (classes e) (disabled e) (value e) fs (dataTables e).
Definition with_dataTables (ts : list DTOptions) (e : Elem) : Elem :=
  mkElem (tag e) (attrs e) (classes e) (disabled e) (value e) (files e) ts.

Definition hasClass (c : string) (e : Elem) : bool :=
  bool_decide (c ∈ classes e).

(** jQuery's [addClass] appends a class that is absent, [removeClass]
    removes every occurrence, and [toggleClass] picks one of the two by
    [hasClass], class name by class name. *)
Definition addClass1 (c : string) (e : Elem) : Elem :=
  if hasClass c e then e else with_classes (classes e ++ [c]) e.
Definition removeClass1 (c : string) (e : Elem) : Elem :=
  with_classes (filter (λ c', c' ≠ c) (classes e)) e.
Definition toggleClass1 (c : string) (e : Elem) : Elem :=
  if hasClass c e then removeClass1 c e else addClass1 c e.
Definition toggleClasses (cs : list string) (e : Elem) : Elem :=
  foldl (λ e c, toggleClass1 c e) e cs.

(** An input is a file input by its [type] attribute, read without regard
    to case. *)
Definition is_file_input (e : Elem) : bool :=
  bool_decide (tag e = "input")
  && bool_decide (toLowerCase <$> attrs e !! "type" = Some "file").

(** ** Selectors *)

Inductive Selector :=
| Tag (t : string)                    (* t *)
| Id (i : string)                     (* #i *)
| Class (c : string)                  (* .c *)
| TagAttr (t a v : string)            (* t[a="v"] *)
| Or (s1 s2 : Selector).              (* s1, s2 *)

(** The attributes whose values an attribute selector compares without
    regard to ASCII case on the elements of an HTML document. *)
Definition case_insensitive_attributes : list string :=
  [ "accept"; "accept-charset"; "align"; "alink"; "axis"; "bgcolor"; "charset";
    "checked"; "clear"; "codetype"; "color"; "compact"; "declare"; "defer";
    "dir"; "direction"; "disabled"; "enctype"; "face"; "frame"; "hreflang";
    "http-equiv"; "lang"; "language"; "link"; "media"; "method"; "multiple";
    "nohref"; "noresize"; "noshade"; "nowrap"; "readonly"; "rel"; "rev";
    "rules"; "scope"; "scrolling"; "selected"; "shape"; "target"; "text";
    "type"; "valign"; "valuetype"; "vlink" ].

Fixpoint matches (s : Selector) (e : Elem) : bool :=
  match s with
  | Tag t => bool_decide (tag e = t)
  | Id i => bool_decide (attrs e !! "id" = Some i)
  | Class c => hasClass c e
  | TagAttr t a v =>
      bool_decide (tag e = t)
      && (if bool_decide (a ∈ case_insensitive_attributes)
          then bool_decide (toLowerCase <$> attrs e !! a = Some (toLowerCase v))
          else bool_decide (attrs e !! a = Some v))
  | Or s1 s2 => matches s1 e || matches s2 e
  end.

(** ** The page: state and exceptions *)

Record World := mkWorld {
  doc : Node;                (* the document *)
  alerts : list string       (* the messages of the alerts shown, oldest first *)
}.

Inductive Res (A : Type) :=
| Ok (a : A)
| Throw (err : string).
Arguments Ok {A} a.
Arguments Throw {A} err.

Definition M (A : Type) : Type := World → Res A * World.

#[global] Instance M_ret : MRet M := λ A a w, (Ok a, w).
#[global] Instance M_bind : MBind M := λ A B f m w,
  match m w with
  | (Ok a, w') => f a w'
  | (Throw err, w') => (Throw err, w')
  end.

Definition throw {A} (err : string) : M A := λ w, (Throw err, w).
Definition get_doc : M Node := λ w, (Ok (doc w), w).
Definition put_doc (d : Node) : M unit := λ w, (Ok tt, mkWorld d (alerts w)).

(** [window.alert]. *)
Definition alert (msg : string) : M unit :=
  λ w, (Ok tt, mkWorld (doc w) (alerts w ++ [msg])).

(** Reading a property of, or calling a method on, [undefined] or [null]. *)
Definition defined {A} (o : option A) : M A :=
  match o with
  | Some a => mret a
  | None => throw "TypeError"
  end.

(** The element a handler received as [this]. *)
Definition elem_of_this (this : path) : M Elem :=
  d ← get_doc; defined (elem_at d this).

(** Rewrites the elements of a set of paths. *)
Definition update_elems (ps : list path) (f : Elem → Elem) : M unit :=
  d ← get_doc;
  put_doc (map_elems (λ q e, if bool_decide (q ∈ ps) then f e else e) d).

(** ** The platform *)

(** What the script calls of the JavaScript engine and of the DOM without
    this development spelling it out: [String.prototype.toUpperCase],
    which follows the Unicode case mappings (it turns "straße" into
    "STRASSE"), and the value sanitization the DOM applies when a value is
    assigned to an input, which depends on the input's type (a text field
    drops line breaks, a colour field lower-cases its value).  The one
    fact about upper-casing the development relies on is that it does not
    empty a string. *)
Class Platform := {
  toUpperCase : string → string;
  toUpperCase_nonempty : ∀ s, toUpperCase s = "" → s = "";
  sanitize : Elem → string → string
}.

(** ** The DOM properties the script uses on [this] *)

(** [this.value].  A file input reports the name of its first file behind
    a fixed prefix, or the empty string when nothing is selected. *)
Definition get_value (this : path) : M string :=
  e ← elem_of_this this;
  mret (if is_file_input e
        then match files e with
             | [] => ""
             | f :: _ => "C:\fakepath\" +:+ File.name f
             end
        else value e).

(** [this.value = v].  On a file input the empty string empties the list
    of selected files and anything else is refused.  Any other input
    stores the value as its type sanitizes it. *)
Definition set_value `{Platform} (this : path) (v : string) : M unit :=
  e ← elem_of_this this;
  if is_file_input e
  then if bool_decide (v = "")
       then update_elems [this] (with_files [])
       else throw "InvalidStateError"
  else update_elems [this] (with_value (sanitize e v)).

(** [this.files]: the selected files of a file input, [null] elsewhere. *)
Definition get_files (this : path) : M (option (list File.t)) :=
  e ← elem_of_this this;
  mret (if is_file_input e then Some (files e) else None).

(** ** jQuery objects *)

(** A jQuery object is the list of the elements it matched. *)
Definition jQ := list path.

Definition matches_at (d : Node) (s : Selector) (q : path) : bool :=
  match elem_at d q with
  | Some e => matches s e
  | None => false
  end.

(** [p] and its ancestors, nearest first. *)
Definition self_and_ancestors (p : path) : list path :=
  (λ n, take n p) <$> reverse (seq 0 (S (length p))).

Definition closest1 (d : Node) (s : Selector) (p : path) : option path :=
  head (filter (λ q, matches_at d s q = true) (self_and_ancestors p)).

Definition find1 (d : Node) (s : Selector) (p : path) : list path :=
  match node_at d p with
  | Some n => (p ++.) <$> select_below (matches s) n
  | None => []
  end.

(** [$(selector)]. *)
Definition jQuery (s : Selector) : M jQ :=
  d ← get_doc; mret (select (matches s) d).

(** [.closest(selector)] and [.find(selector)].  The script calls them on
    objects of at most one element, for which the results of the members
    need no merging. *)
Definition closest (s : Selector) (ps : jQ) : M jQ :=
  d ← get_doc; mret (p ← ps; option_list (closest1 d s p)).
Definition find (s : Selector) (ps : jQ) : M jQ :=
  d ← get_doc; mret (ps ≫= find1 d s).

(** [.toggleClass(names)], the names already split at the spaces. *)
Definition toggleClass (names : list string) (ps : jQ) : M jQ :=
  update_elems ps (toggleClasses names);; mret ps.

(** [.attr(name)] reads the first element, [.attr(name, v)] writes all. *)
Definition attr (name : string) (ps : jQ) : M (option string) :=
  d ← get_doc; mret (p ← head ps; e ← elem_at d p; attrs e !! name).
Definition set_attr (name v : string) (ps : jQ) : M jQ :=
  update_elems ps (λ e, with_attrs (<[name := v]> (attrs e)) e);; mret ps.

(** [.prop('disabled', b)].  The property reflects the attribute of the
    same name: setting it also adds the empty attribute, clearing it
    removes the attribute. *)
Definition set_disabled (b : bool) (e : Elem) : Elem :=
  with_attrs
    (if b then <["disabled" := ""]> (attrs e) else delete "disabled" (attrs e))
    (with_disabled b e).
Definition prop_disabled (b : bool) (ps : jQ) : M jQ :=
  update_elems ps (set_disabled b);; mret ps.

(** [.html(markup)], the markup already parsed. *)
Definition html (new : list Node) (ps : jQ) : M jQ :=
  d ← get_doc;
  put_doc (replace_kids (λ q, bool_decide (q ∈ ps)) new d);; mret ps.

(** [.each(callback)], the callback receiving the element as [this]. *)
Fixpoint each (ps : jQ) (callback : path → M unit) : M unit :=
  match ps with
  | [] => mret tt
  | this :: ps' => callback this;; each ps' callback
  end.

(** ** DataTables *)

(** Modelled from the spec: the table widget is a library outside the
    repository.  The spec gives it a capability query, whether an element
    is already an enhanced table, and an initialisation call taking the
    configuration, and keeps the initialised state on the table element.
    Here the call records its options on the element and the query asks
    whether any were recorded. *)
Definition isDataTable (this : path) : M bool :=
  e ← elem_of_this this; mret (bool_decide (dataTables e ≠ [])).
Definition DataTable (opts : DTOptions) (ps : jQ) : M jQ :=
  update_elems ps (λ e, with_dataTables (dataTables e ++ [opts]) e);; mret ps.

(** ** The script *)

(** Every handler is the body of the function the script passes to [.on],
    taking the element it is bound to as [this]. *)

(** [$('#sidebarCollapse').on('click', ...)] *)
Definition sidebarCollapse_click : M unit :=
  jQuery (Or (Id "sidebar") (Id "content")) ≫= toggleClass ["collapsed"];;
  mret tt.

Definition table_options : DTOptions :=
  {| pageLength := 10;
     lengthMenu := [[Num 10; Num 25; Num 50; Num 100; Num (-1)];
                    [Num 10; Num 25; Num 50; Num 100; Label "All"]];
     responsive := true |}.

(** The callback of [$('table').each(...)]. *)
Definition init_table (this : path) : M unit :=
  enhanced ← isDataTable this;
  if negb enhanced
  then DataTable table_options [this];; mret tt
  else mret tt.

(** The function passed to [$(document).ready]: apart from binding the
    handlers below, it runs the loop over the tables. *)
Definition ready : M unit :=
  tables ← jQuery (Tag "table");
  each tables init_table.

(** [$('input[name="InsuranceCode"]').on('input', ...)] *)
Definition InsuranceCode_input `{Platform} (this : path) : M unit :=
  v ← get_value this;
  set_value this (toUpperCase v).             (* this.value = this.value.toUpperCase() *)

(** The parsed markup
    [<i class="fas fa-spinner fa-spin"></i> Processing...]. *)
Definition processing_markup : list Node :=
  [ El (mkElem "i" ∅ ["fas"; "fa-spinner"; "fa-spin"] false "" [] []) [];
    Text " Processing..." ].

(** [$('form').on('submit', ...)] *)
Definition form_submit (this : path) : M unit :=
  submitBtn ← find (TagAttr "button" "type" "submit") [this];
  prop_disabled true submitBtn ≫= html processing_markup;;
  mret tt.

(** [$('.toggle-password').on('click', ...)] *)
Definition toggle_password_click (this : path) : M unit :=
  input ← closest (Class "input-group") [this] ≫= find (Tag "input");
  t ← attr "type" input;
  let type := if bool_decide (t = Some "password") then "text" else "password" in
  set_attr "type" type input;;
  find (Tag "i") [this] ≫= toggleClass ["fa-eye"; "fa-eye-slash"];;
  mret tt.

Definition size_message : string :=
  "File size exceeds 10MB limit. Please choose a smaller file.".
Definition extension_message : string :=
  "Please select an Excel file (xlsx or xls format).".

(** [x > y] on the rationals. *)
Definition Qgtb (x y : Q) : bool := negb (Qle_bool x y).

(** [file.size / 1024 / 1024].  The division of a size in bytes by a power
    of two is exact in JavaScript's numbers, so the rationals carry it. *)
Definition megabytes (file : File.t) : Q :=
  (inject_Z (Z.of_N (File.size file)) / 1024 / 1024)%Q.

(** [$('input[type="file"]').on('change', ...)] *)
Definition file_change `{Platform} (this : path) : M unit :=
  fs ← get_files this ≫= defined;
  match fs !! 0%nat with                      (* const file = this.files[0] *)
  | Some file =>                              (* if (file) *)
      let fileSize := megabytes file in
      (if Qgtb fileSize 10
       then alert size_message;; set_value this ""
       else mret tt);;
      last_part ← defined (pop (split "." (File.name file)));
      let extension := toLowerCase last_part in
      if (indexOf ["xlsx"; "xls"] extension =? -1)%Z
      then alert extension_message;; set_value this ""
      else mret tt
  | None => mret tt
  end.

(** ** Vocabulary of the statements *)

Fixpoint contains (c : ascii) (s : string) : bool :=
  match s with
  | EmptyString => false
  | String c' s' => Ascii.eqb c' c || contains c s'
  end.

(** The specification takes the extension to be the substring after the
    last ['.'] of the name; as with [substring] after [lastIndexOf], a name
    without the character is its own last part. *)
Fixpoint substring_after_last (c : ascii) (s : string) : string :=
  match s with
  | EmptyString => EmptyString
  | String c' s' =>
      if contains c s' then substring_after_last c s'
      else if Ascii.eqb c' c then s' else s
  end.

(** The extensions the upload accepts. *)
Definition excel_extensions : list string := ["xlsx"; "xls"].

(** Emptying the selection of the file input at [this]. *)
Definition clear_selection (this : path) (w : World) : World :=
  mkWorld
    (map_elems (λ q e, if bool_decide (q ∈ [this]) then with_files [] e else e) (doc w))
    (alerts w).

(** The files held by the element at [this]. *)
Definition selection (w : World) (this : path) : option (list File.t) :=
  files <$> elem_at (doc w) this.

(** What [alert(msg); this.value = ''] does to the page, for a file input
    at [this]. *)
Definition reject (msg : string) (this : path) (w : World) : World :=
  clear_selection this (mkWorld (doc w) (alerts w ++ [msg])).

(** The size in bytes of one mebibyte. *)
Definition MiB : N := 1048576.

(** What the loop body [init_table] does to the element it visits. *)
Definition enhance (e : Elem) : Elem :=
  if bool_decide (dataTables e ≠ []) then e
  else with_dataTables (dataTables e ++ [table_options]) e.

(** [n] runs of a program, one after the other. *)
Fixpoint times (n : nat) (m : M unit) : M unit :=
  match n with
  | O => mret tt
  | S n' => m;; times n' m
  end.

(** [steps f w w']: going from [w] to [w'] rewrote every element with [f]
    and showed no alert. *)
Definition steps (f : path → Elem → Elem) (w w' : World) : Prop :=
  alerts w' = alerts w ∧ ∀ q, elem_at (doc w') q = f q <$> elem_at (doc w) q.

(** The buttons the submit handler finds in the form at [this]. *)
Definition submit_buttons (w : World) (this : path) : jQ :=
  find1 (doc w) (TagAttr "button" "type" "submit") this.

(** The inputs and the icons the password toggle at [this] works on, and
    the type attribute it reads. *)
Definition password_inputs (w : World) (this : path) : jQ :=
  option_list (closest1 (doc w) (Class "input-group") this)
    ≫= find1 (doc w) (Tag "input").
Definition password_icons (w : World) (this : path) : jQ :=
  find1 (doc w) (Tag "i") this.
Definition first_type (w : World) (this : path) : option string :=
  p ← head (password_inputs w this); e ← elem_at (doc w) p; attrs e !! "type".

(** The type the handler writes after reading [t]. *)
Definition toggled_type (t : option string) : string :=
  if bool_decide (t = Some "password") then "text" else "password".

(** What one click does to the element at [q]. *)
Definition click_effect (inputs icons : jQ) (ty : string) (q : path) (e : Elem) : Elem :=
  let e1 := if bool_decide (q ∈ inputs)
            then with_attrs (<["type" := ty]> (attrs e)) e else e in
  if bool_decide (q ∈ icons) then toggleClasses ["fa-eye"; "fa-eye-slash"] e1 else e1.

(** ** Sample pages *)

(** A platform to run the handlers on the sample pages.  It upper-cases
    the ASCII letters and takes every input for a text field, dropping the
    line breaks of an assigned value: what a browser does with a text field
    and a string of ASCII characters. *)
Fixpoint strip_newlines (s : string) : string :=
  match s with
  | EmptyString => EmptyString
  | String c s' =>
      if Ascii.eqb c "010" || Ascii.eqb c "013" then strip_newlines s'
      else String c (strip_newlines s')
  end.

#[global] Instance sample_platform : Platform := {|
  toUpperCase := ascii_toUpperCase;
  toUpperCase_nonempty :=
    ltac:(intros [|c s] Hempty; [reflexivity | discriminate Hempty]);
  sanitize := λ _ v, strip_newlines v
|}.

Definition elem (t : string) (a : list (string * string)) (cs : list string) : Elem :=
  mkElem t (list_to_map a) cs false "" [] [].

Definition file_input (fs : list File.t) : Node :=
  El (mkElem "input" {["type" := "file"]} [] false "" fs []) [].

Definition upload_page (fs : list File.t) : World :=
  mkWorld (El (elem "form" [] []) [file_input fs]) [].

(** A body holding the sidebar and the content area. *)
Definition sidebar_page (sidebar_classes content_classes : list string) : World :=
  mkWorld
    (El (elem "body" [] [])
       [ El (elem "nav" [("id", "sidebar")] sidebar_classes) [];
         El (elem "div" [("id", "content")] content_classes) [] ])
    [].

(** A form with one insurance-code field. *)
Definition code_page (v : string) : World :=
  mkWorld
    (El (elem "form" [] [])
       [ El (mkElem "input" {["name" := "InsuranceCode"]} [] false v [] []) [] ])
    [].

(** A body with a plain table and, inside a division, a second one. *)
Definition tables_page : World :=
  mkWorld
    (El (elem "body" [] [])
       [ El (elem "table" [("id", "members")] []) [Text "rows"];
         El (elem "div" [] []) [El (elem "table" [] ["table"]) []] ])
    [].

(** A body with a form of one field, a submit button and a plain button. *)
Definition form_page : World :=
  mkWorld
    (El (elem "body" [] [])
       [ El (elem "form" [] [])
           [ El (elem "input" [("name", "InsuranceCode")] []) [];
             El (elem "button" [("type", "submit")] ["btn"]) [Text "Check"];
             El (elem "button" [("type", "button")] ["btn"]) [Text "Reset"] ] ])
    [].

(** An input group with one input and a toggle holding one icon. *)
Definition password_page (input_attrs : list (string * string))
    (icon_classes : list string) : World :=
  mkWorld
    (El (elem "div" [] ["input-group"])
       [ El (elem "input" input_attrs ["form-control"]) [];
         El (elem "span" [] ["toggle-password"])
           [El (elem "i" [] icon_classes) []] ])
    [].

(** A form whose only buttons are a button without a type attribute and
    an input of type submit. *)
Definition plain_button_page : World :=
  mkWorld
    (El (elem "form" [] [])
       [ El (elem "button" [] ["btn"]) [Text "Save"];
         El (elem "input" [("type", "submit")] []) [] ])
    [].

(** An input group inside another: the outer one holds an input of its
    own, the inner one an input and the toggle. *)
Definition nested_group_page : World :=
  mkWorld
    (El (elem "div" [] ["input-group"])
       [ El (elem "input" [("type", "text")] []) [];
         El (elem "div" [] ["input-group"])
           [ El (elem "input" [("type", "password")] []) [];
             El (elem "span" [] ["toggle-password"])
               [El (elem "i" [] ["fa-eye"]) []] ] ])
    [].

(** * Properties *)

(** ** Lists and trees *)

Lemma imap_from_lookup {A B} (f : nat → A → B) (l : list A) (i j : nat) :
  imap_from f i l !! j = f (i + j)%nat <$> l !! j.
Proof.
  revert i j. induction l as [|x l IH]; intros i j; [done|].
  destruct j as [|j]; simpl.
  - by rewrite Nat.add_0_r.
  - rewrite IH. by replace (S i + j)%nat with (i + S j)%nat by lia.
Qed.

Lemma Node_ind (P : Node → Prop) :
  (∀ s, P (Text s)) →
  (∀ e kids, Forall P kids → P (El e kids)) →
  ∀ d, P d.
Proof.
  intros HT HE. fix IH 1. intros [s|e kids]; [apply HT|].
  apply HE. induction kids as [|k kids IHk]; constructor; [apply IH|apply IHk].
Qed.

Lemma node_at_app (d : Node) (p q : path) :
  node_at d (p ++ q) = n ← node_at d p; node_at n q.
Proof.
  revert d. induction p as [|i p IH]; intros d; [done|].
  destruct d as [s|e kids]; simpl; [done|].
  destruct (kids !! i) as [k|]; simpl; [apply IH|done].
Qed.

Lemma node_at_map_elems (f : path → Elem → Elem) (d : Node) (p : path) :
  node_at (map_elems f d) p = map_elems (λ q, f (p ++ q)) <$> node_at d p.
Proof.
  revert f d. induction p as [|i p IH]; intros f d; simpl.
  - f_equal.
  - destruct d as [s|e kids]; simpl; [done|].
    rewrite imap_from_lookup. destruct (kids !! i) as [k|]; simpl; [|done].
    apply IH.
Qed.

Lemma elem_at_map_elems (f : path → Elem → Elem) (d : Node) (p : path) :
  elem_at (map_elems f d) p = f p <$> elem_at d p.
Proof.
  unfold elem_at. rewrite node_at_map_elems.
  destruct (node_at d p) as [[s|e kids]|]; simpl; [done| |done].
  by rewrite app_nil_r.
Qed.

Lemma elem_at_cons (e : Elem) (kids : list Node) (i : nat) (p : path) :
  elem_at (El e kids) (i :: p) = k ← kids !! i; elem_at k p.
Proof. unfold elem_at; simpl. by destruct (kids !! i). Qed.

Lemma elem_of_concat_imap_from (F : Node → list path) (kids : list Node)
    (j : nat) (p : path) :
  p ∈ concat (imap_from (λ i k, (i ::.) <$> F k) j kids)
  ↔ ∃ i r k, p = (j + i)%nat :: r ∧ kids !! i = Some k ∧ r ∈ F k.
Proof.
  revert j. induction kids as [|k kids IH]; intros j; simpl.
  - split; [by intros ?%elem_of_nil | by intros (? & ? & ? & _ & ? & _)].
  - rewrite elem_of_app, list_elem_of_fmap, IH. split.
    + intros [(r & -> & Hr)|(i & r & k' & -> & Hk & Hr)].
      * exists 0%nat, r, k. by rewrite Nat.add_0_r.
      * exists (S i), r, k'. split; [f_equal; lia | done].
    + intros (i & r & k' & -> & Hk & Hr). destruct i as [|i]; simpl in Hk.
      * left. injection Hk as ->. exists r. by rewrite Nat.add_0_r.
      * right. exists i, r, k'. split; [f_equal; lia | done].
Qed.

Lemma elem_of_select (pred : Elem → bool) (d : Node) (p : path) :
  p ∈ select pred d ↔ ∃ e, elem_at d p = Some e ∧ pred e = true.
Proof.
  revert d. induction p as [|i p IH]; intros [s|e kids]; simpl.
  - split; [by intros ?%elem_of_nil | by intros (? & ? & _)].
  - rewrite elem_of_app, elem_of_concat_imap_from. split.
    + intros [H|(? & ? & ? & ? & _)]; [|done].
      destruct (pred e) eqn:He; [eauto | by apply elem_of_nil in H].
    + intros (e' & [= <-] & ->). left. apply list_elem_of_here.
  - split; [by intros ?%elem_of_nil | by intros (? & ? & _)].
  - rewrite elem_of_app, elem_of_concat_imap_from, elem_at_cons. split.
    + intros [H|(i' & r & k & [= -> ->] & Hk & Hr)].
      * destruct (pred e); [|by apply elem_of_nil in H].
        by apply list_elem_of_singleton in H.
      * rewrite Hk; simpl. by apply IH.
    + intros (e' & He' & Hp). right.
      destruct (kids !! i) as [k|] eqn:Hk; [|done]. simpl in He'.
      exists i, p, k. split; [done|]. split; [done|]. apply IH. eauto.
Qed.

Lemma elem_of_select_below (pred : Elem → bool) (d : Node) (p : path) :
  p ∈ select_below pred d
  ↔ p ≠ [] ∧ ∃ e, elem_at d p = Some e ∧ pred e = true.
Proof.
  destruct d as [s|e kids]; simpl.
  - split; [by intros ?%elem_of_nil|].
    intros (_ & ? & H & _). by destruct p.
  - rewrite elem_of_concat_imap_from. split.
    + intros (i & r & k & -> & Hk & (e' & He' & Hp)%elem_of_select).
      split; [done|]. exists e'. rewrite elem_at_cons. simpl.
      by rewrite Hk.
    + intros (Hne & e' & He' & Hp). destruct p as [|i r]; [done|].
      rewrite elem_at_cons in He'.
      destruct (kids !! i) as [k|] eqn:Hk; [|done]. simpl in He'.
      exists i, r, k. split; [done|]. split; [done|].
      apply elem_of_select. eauto.
Qed.

Lemma select_map_elems (pred : Elem → bool) (f : path → Elem → Elem) (d : Node) :
  (∀ q e, pred (f q e) = pred e) →
  select pred (map_elems f d) = select pred d.
Proof.
  revert f. induction d as [s|e kids IH] using Node_ind; intros f Hf; simpl; [done|].
  rewrite Hf. f_equal. f_equal.
  generalize 0%nat. induction IH as [|k kids Hk _ IHkids]; intros j; simpl; [done|].
  rewrite Hk by (intros; apply Hf). by rewrite IHkids.
Qed.

Lemma select_below_map_elems (pred : Elem → bool) (f : path → Elem → Elem) (d : Node) :
  (∀ q e, pred (f q e) = pred e) →
  select_below pred (map_elems f d) = select_below pred d.
Proof.
  intros Hf.
  pose proof (select_map_elems pred f d Hf) as H.
  destruct d as [s|e kids]; simpl in *; [done|].
  rewrite Hf in H. by apply app_inv_head in H.
Qed.

(** ** Strings *)

Lemma split_without (c : ascii) (s : string) :
  contains c s = false → split c s = [s].
Proof.
  induction s as [|c' s IH]; simpl; [done|].
  intros [Hc Hs]%orb_false_iff. by rewrite Hc, (IH Hs).
Qed.

Lemma split_with (c : ascii) (s : string) :
  contains c s = true → ∃ w1 w2 ws, split c s = w1 :: w2 :: ws.
Proof.
  induction s as [|c' s IH]; simpl; [done|].
  destruct (Ascii.eqb c' c) eqn:Hc; simpl.
  - intros _. destruct (contains c s) eqn:Hs.
    + destruct (IH eq_refl) as (w1 & w2 & ws & ->). eauto.
    + rewrite (split_without _ _ Hs). eauto.
  - intros Hs. destruct (IH Hs) as (w1 & w2 & ws & ->). eauto.
Qed.

Lemma pop_split (c : ascii) (s : string) :
  pop (split c s) = Some (substring_after_last c s).
Proof.
  unfold pop. induction s as [|c' s IH]; simpl; [done|].
  destruct (contains c s) eqn:Hs.
  - destruct (split_with _ _ Hs) as (w1 & w2 & ws & Hsplit).
    rewrite Hsplit in *. by destruct (Ascii.eqb c' c).
  - rewrite (split_without _ _ Hs). by destruct (Ascii.eqb c' c).
Qed.

Lemma indexOf_absent (l : list string) (x : string) :
  indexOf l x = (-1)%Z ↔ x ∉ l.
Proof.
  assert (Hge : ∀ l, (-1 ≤ indexOf l x)%Z).
  { clear l. induction l as [|y l IH]; simpl; [lia|].
    destruct (String.eqb y x); [lia|].
    destruct (Z.eqb_spec (indexOf l x) (-1)); lia. }
  induction l as [|y l IH]; simpl.
  - split; [intros _; apply not_elem_of_nil | done].
  - rewrite not_elem_of_cons. destruct (String.eqb_spec y x) as [->|Hne].
    + split; [lia | intros [? _]; done].
    + destruct (Z.eqb_spec (indexOf l x) (-1)) as [Hi|Hi].
      * split; [intros _; split; [congruence | by apply IH] | done].
      * split; [specialize (Hge l); lia | intros [_ H]; by apply IH in H].
Qed.

Lemma Qgtb_megabytes (file : File.t) :
  Qgtb (megabytes file) 10 = true ↔ (10 * MiB < File.size file)%N.
Proof.
  unfold Qgtb, megabytes, MiB. rewrite negb_true_iff.
  destruct (Qle_bool _ _) eqn:H.
  - apply Qle_bool_iff in H. unfold Qle in H; simpl in H.
    split; [done | lia].
  - split; [intros _ | done].
    destruct (decide (10 * 1048576 < File.size file)%N) as [|Hn]; [done|].
    exfalso. apply not_true_iff_false in H. apply H.
    apply Qle_bool_iff. unfold Qle; simpl. lia.
Qed.

(** ** Running the interface *)

Lemma bind_run {A B} (m : M A) (f : A → M B) (w : World) :
  (m ≫= f) w =
    match m w with
    | (Ok a, w') => f a w'
    | (Throw err, w') => (Throw err, w')
    end.
Proof. done. Qed.

Lemma ret_run {A} (a : A) (w : World) : (mret a : M A) w = (Ok a, w).
Proof. done. Qed.

Lemma defined_run {A} (a : A) (w : World) : defined (Some a) w = (Ok a, w).
Proof. done. Qed.

Lemma elem_of_this_run (w : World) (this : path) (e : Elem) :
  elem_at (doc w) this = Some e → elem_of_this this w = (Ok e, w).
Proof. intros H. unfold elem_of_this, get_doc, mbind, M_bind. by rewrite H. Qed.

Lemma get_files_run (w : World) (this : path) (e : Elem) :
  elem_at (doc w) this = Some e → is_file_input e = true →
  get_files this w = (Ok (Some (files e)), w).
Proof.
  intros H Hf. unfold get_files, mbind, M_bind.
  by rewrite (elem_of_this_run _ _ _ H), Hf.
Qed.

Lemma set_value_clears {browser : Platform} (w : World) (this : path) (e : Elem) :
  elem_at (doc w) this = Some e → is_file_input e = true →
  set_value this "" w = (Ok tt, clear_selection this w).
Proof.
  intros H Hf. unfold set_value, mbind, M_bind.
  by rewrite (elem_of_this_run _ _ _ H), Hf.
Qed.

Lemma elem_at_clear_selection (w : World) (this : path) (e : Elem) :
  elem_at (doc w) this = Some e →
  elem_at (doc (clear_selection this w)) this = Some (with_files [] e).
Proof.
  intros H. unfold clear_selection; simpl.
  rewrite elem_at_map_elems, H; simpl.
  rewrite bool_decide_eq_true_2; [done | by apply list_elem_of_singleton].
Qed.

Lemma alert_run (msg : string) (w : World) :
  alert msg w = (Ok tt, mkWorld (doc w) (alerts w ++ [msg])).
Proof. done. Qed.

Lemma reject_run {browser : Platform} (msg : string) (w : World) (this : path) (e : Elem) :
  elem_at (doc w) this = Some e → is_file_input e = true →
  (alert msg;; set_value this "") w = (Ok tt, reject msg this w).
Proof.
  intros H Hf. rewrite bind_run, alert_run.
  by rewrite (set_value_clears _ this e).
Qed.

Lemma elem_at_reject (msg : string) (w : World) (this : path) (e : Elem) :
  elem_at (doc w) this = Some e →
  elem_at (doc (reject msg this w)) this = Some (with_files [] e).
Proof. intros H. unfold reject. by apply elem_at_clear_selection. Qed.

Lemma alerts_reject (msg : string) (w : World) (this : path) :
  alerts (reject msg this w) = alerts w ++ [msg].
Proof. done. Qed.

Lemma selection_reject (msg : string) (w : World) (this : path) (e : Elem) :
  elem_at (doc w) this = Some e → selection (reject msg this w) this = Some [].
Proof. intros H. unfold selection. by rewrite (elem_at_reject _ _ _ _ H). Qed.

(** ** The upload check *)

Lemma file_change_run {browser : Platform}
    (w : World) (this : path) (e : Elem) (file : File.t) (rest : list File.t) :
  elem_at (doc w) this = Some e → is_file_input e = true →
  files e = file :: rest →
  file_change this w =
    let w1 := if Qgtb (megabytes file) 10 then reject size_message this w else w in
    let extension := toLowerCase (substring_after_last "." (File.name file)) in
    (Ok tt, if bool_decide (extension ∈ excel_extensions) then w1
            else reject extension_message this w1).
Proof.
  intros Hthis Hinput Hfiles. unfold file_change.
  rewrite !bind_run, (get_files_run _ _ _ Hthis Hinput), defined_run, Hfiles.
  change ((file :: rest) !! 0%nat) with (Some file). cbv beta iota zeta.
  rewrite bind_run, pop_split.
  set (extension := toLowerCase (substring_after_last "." (File.name file))).
  assert ((if Qgtb (megabytes file) 10
           then alert size_message;; set_value this "" else mret tt) w
          = (Ok tt, if Qgtb (megabytes file) 10
                    then reject size_message this w else w)) as ->.
  { destruct (Qgtb _ _); [by apply reject_run with e | done]. }
  rewrite bind_run, defined_run. fold extension.
  case_bool_decide as Hin.
  - destruct (Z.eqb_spec (indexOf ["xlsx"; "xls"] extension) (-1)) as [Hi|Hi];
      [|done].
    by apply indexOf_absent in Hi.
  - apply indexOf_absent in Hin. unfold excel_extensions in Hin. rewrite Hin.
    change (-1 =? -1)%Z with true. cbv iota.
    destruct (Qgtb _ _).
    + apply reject_run with (with_files [] e); [|done].
      by apply elem_at_reject.
    + by apply reject_run with e.
Qed.

Lemma Qgtb_lt (x y : Q) : Qgtb x y = true ↔ (y < x)%Q.
Proof.
  unfold Qgtb. rewrite negb_true_iff, <-not_true_iff_false, Qle_bool_iff.
  split; [apply Qnot_le_lt | apply Qlt_not_le].
Qed.

Lemma file_change_no_file {browser : Platform} (w : World) (this : path) (e : Elem) :
  elem_at (doc w) this = Some e → is_file_input e = true → files e = [] →
  file_change this w = (Ok tt, w).
Proof.
  intros Hthis Hinput Hfiles. unfold file_change.
  by rewrite !bind_run, (get_files_run _ _ _ Hthis Hinput), defined_run, Hfiles.
Qed.

(** C1: a selected file that is over the size limit and has an extension
    other than xlsx and xls takes both branches, in order and without a
    short cut: the handler runs exactly the size alert, the clearing of the
    input, the extension alert and the clearing again.  The two messages
    are added to the alerts in that order and the selection ends empty. *)
Theorem file_change_both_checks {browser : Platform}
    (w : World) (this : path) (e : Elem) (file : File.t) (rest : list File.t) :
  elem_at (doc w) this = Some e → is_file_input e = true →
  files e = file :: rest →
  (10 * MiB < File.size file)%N →
  toLowerCase (substring_after_last "." (File.name file)) ∉ excel_extensions →
  file_change this w
    = (alert size_message;; set_value this "";;
       alert extension_message;; set_value this "") w
  ∧ ∃ w', file_change this w = (Ok tt, w')
      ∧ selection (reject size_message this w) this = Some []
      ∧ w' = reject extension_message this (reject size_message this w)
      ∧ alerts w' = alerts w ++ [size_message; extension_message]
      ∧ selection w' this = Some [].
Proof.
  intros Hthis Hinput Hfiles Hbig%Qgtb_megabytes Hext.
  rewrite (file_change_run _ _ _ _ _ Hthis Hinput Hfiles); cbv zeta.
  rewrite Hbig, bool_decide_eq_false_2 by done.
  pose proof (elem_at_reject size_message _ _ _ Hthis) as Hthis1.
  split.
  - rewrite bind_run, alert_run, bind_run.
    rewrite (set_value_clears _ this e) by done.
    symmetry. by apply reject_run with (with_files [] e).
  - eexists. split; [done|]. split; [by eapply selection_reject|].
    split; [done|]. split.
    + rewrite !alerts_reject. by rewrite <-app_assoc.
    + by eapply selection_reject.
Qed.

(** C2: when the size in bytes, divided by 1024 and by 1024 again, is
    strictly greater than 10, the size message is shown and the selection
    is emptied.  A file of exactly 10 MiB does not trigger the size rule:
    the size message is not among the alerts shown, and with an accepted
    extension the page is left as it was. *)
Theorem file_change_size_rule {browser : Platform}
    (w : World) (this : path) (e : Elem) (file : File.t) (rest : list File.t) :
  elem_at (doc w) this = Some e → is_file_input e = true →
  files e = file :: rest →
  ((10 < megabytes file)%Q →
     ∃ w' shown, file_change this w = (Ok tt, w')
       ∧ alerts w' = alerts w ++ size_message :: shown
       ∧ selection w' this = Some [])
  ∧ (File.size file = (10 * MiB)%N →
     ∃ w' shown, file_change this w = (Ok tt, w')
       ∧ alerts w' = alerts w ++ shown
       ∧ (size_message ∉ shown)
       ∧ (toLowerCase (substring_after_last "." (File.name file)) ∈ excel_extensions
          → w' = w)).
Proof.
  intros Hthis Hinput Hfiles.
  rewrite (file_change_run _ _ _ _ _ Hthis Hinput Hfiles); cbv zeta.
  pose proof (elem_at_reject size_message _ _ _ Hthis) as Hthis1.
  split.
  - intros Hbig%Qgtb_lt. rewrite Hbig. case_bool_decide.
    + exists (reject size_message this w), []. split; [done|].
      split; [done | by eapply selection_reject].
    + exists (reject extension_message this (reject size_message this w)),
        [extension_message].
      split; [done|]. split; [|by eapply selection_reject].
      rewrite !alerts_reject. by rewrite <-app_assoc.
  - intros Hsize.
    assert (Qgtb (megabytes file) 10 = false) as ->.
    { apply not_true_iff_false. rewrite Qgtb_megabytes. lia. }
    case_bool_decide.
    + exists w, []. rewrite app_nil_r. split_and!; [done..|apply not_elem_of_nil|done].
    + exists (reject extension_message this w), [extension_message].
      split_and!; [done..| |done].
      by intros [=]%list_elem_of_singleton.
Qed.

(** C3: when the substring after the last '.' of the file name, lower-cased,
    is neither xlsx nor xls, the extension message is shown, as the last
    alert, and the selection is emptied. *)
Theorem file_change_extension_rule {browser : Platform}
    (w : World) (this : path) (e : Elem) (file : File.t) (rest : list File.t) :
  elem_at (doc w) this = Some e → is_file_input e = true →
  files e = file :: rest →
  toLowerCase (substring_after_last "." (File.name file)) ∉ excel_extensions →
  ∃ w' shown, file_change this w = (Ok tt, w')
    ∧ alerts w' = alerts w ++ shown ++ [extension_message]
    ∧ selection w' this = Some [].
Proof.
  intros Hthis Hinput Hfiles Hext.
  rewrite (file_change_run _ _ _ _ _ Hthis Hinput Hfiles); cbv zeta.
  rewrite bool_decide_eq_false_2 by done.
  pose proof (elem_at_reject size_message _ _ _ Hthis) as Hthis1.
  destruct (Qgtb _ _).
  - exists (reject extension_message this (reject size_message this w)),
      [size_message].
    split; [done|]. split; [|by eapply selection_reject].
    rewrite !alerts_reject. by rewrite <-app_assoc.
  - exists (reject extension_message this w), [].
    split; [done|]. split; [done | by eapply selection_reject].
Qed.

(** C4: the handler leaves the page alone unless the file is invalid.
    With no file selected it returns at once, and with a selected file of
    at most 10 MiB whose lower-cased extension is xlsx or xls it shows no
    alert and keeps the selection: in both cases the page after the handler
    is the page before it. *)
Theorem file_change_valid_unchanged {browser : Platform} (w : World) (this : path) (e : Elem) :
  elem_at (doc w) this = Some e → is_file_input e = true →
  (files e = [] → file_change this w = (Ok tt, w))
  ∧ (∀ file rest,
       files e = file :: rest →
       (File.size file ≤ 10 * MiB)%N →
       toLowerCase (substring_after_last "." (File.name file)) ∈ excel_extensions →
       file_change this w = (Ok tt, w)).
Proof.
  intros Hthis Hinput. split.
  - by apply file_change_no_file.
  - intros file rest Hfiles Hsize Hext.
    rewrite (file_change_run _ _ _ _ _ Hthis Hinput Hfiles); cbv zeta.
    rewrite bool_decide_eq_true_2 by done.
    assert (Qgtb (megabytes file) 10 = false) as ->; [|done].
    apply not_true_iff_false. rewrite Qgtb_megabytes. lia.
Qed.

Lemma file_change_both_checks_witness :
  let w := upload_page [File.mk "report.docx" (15 * MiB)] in
  ∃ w', file_change [0%nat] w = (Ok tt, w')
    ∧ alerts w' = [size_message; extension_message]
    ∧ selection w' [0%nat] = Some [].
Proof.
  intros w.
  destruct (file_change_both_checks w [0%nat]
              (mkElem "input" {["type" := "file"]} [] false ""
                 [File.mk "report.docx" (15 * MiB)] [])
              (File.mk "report.docx" (15 * MiB)) [])
    as (_ & w' & Hrun & _ & _ & Halerts & Hsel).
  - reflexivity.
  - reflexivity.
  - reflexivity.
  - reflexivity.
  - apply (bool_decide_unpack _). vm_compute. exact I.
  - exists w'. split; [exact Hrun|]. split; [exact Halerts | exact Hsel].
Defined.

(** C10 (as amended): for a name without a '.', the whole lower-cased name
    is what the handler compares: the extension message is shown exactly
    when the lower-cased name is neither xlsx nor xls. *)
Theorem file_change_dotless {browser : Platform}
    (w : World) (this : path) (e : Elem) (file : File.t) (rest : list File.t) :
  elem_at (doc w) this = Some e → is_file_input e = true →
  files e = file :: rest →
  contains "." (File.name file) = false →
  ∃ w' shown, file_change this w = (Ok tt, w')
    ∧ alerts w' = alerts w ++ shown
    ∧ (extension_message ∈ shown
       ↔ toLowerCase (File.name file) ∉ excel_extensions).
Proof.
  intros Hthis Hinput Hfiles Hdot.
  rewrite (file_change_run _ _ _ _ _ Hthis Hinput Hfiles); cbv zeta.
  assert (substring_after_last "." (File.name file) = File.name file) as ->.
  { pose proof (pop_split "." (File.name file)) as H.
    rewrite (split_without _ _ Hdot) in H. by injection H. }
  case_bool_decide as Hext; destruct (Qgtb _ _).
  - exists (reject size_message this w), [size_message]. split_and!; [done..|].
    split; [by intros [=]%list_elem_of_singleton | done].
  - exists w, []. rewrite app_nil_r. split_and!; [done..|].
    split; [by intros ?%elem_of_nil | done].
  - exists (reject extension_message this (reject size_message this w)),
      [size_message; extension_message].
    split_and!; [done | by rewrite !alerts_reject, <-app_assoc |].
    split; [done | intros _; set_solver].
  - exists (reject extension_message this w), [extension_message].
    split_and!; [done..|]. split; [done | intros _; set_solver].
Qed.

(** C10 (as stated) fails: the dotless name XLS is neither of the two
    names, yet the handler accepts it, showing no alert and keeping the
    selection. *)
Lemma file_change_dotless_upper_case_accepted :
  contains "." "XLS" = false ∧ "XLS" ≠ "xlsx" ∧ "XLS" ≠ "xls"
  ∧ file_change [0%nat] (upload_page [File.mk "XLS" 1])
    = (Ok tt, upload_page [File.mk "XLS" 1]).
Proof. split_and!; [reflexivity | discriminate | discriminate | reflexivity]. Qed.

(** ** Classes *)

Lemma hasClass_toggleClass1 (c : string) (e : Elem) :
  hasClass c (toggleClass1 c e) = negb (hasClass c e).
Proof.
  unfold toggleClass1, addClass1, removeClass1.
  destruct (hasClass c e) eqn:H; unfold hasClass in *; simpl.
  - apply bool_decide_eq_false_2. rewrite list_elem_of_filter. by intros [? _].
  - apply bool_decide_eq_true_2. set_solver.
Qed.

Lemma hasClass_toggleClass1_ne (c c' : string) (e : Elem) :
  c ≠ c' → hasClass c (toggleClass1 c' e) = hasClass c e.
Proof.
  intros Hne. unfold toggleClass1, addClass1, removeClass1.
  destruct (hasClass c' e) eqn:H; unfold hasClass; simpl; apply bool_decide_ext.
  - rewrite list_elem_of_filter. split; [by intros [_ ?] | by intros ?; split].
  - rewrite elem_of_app, list_elem_of_singleton.
    split; [by intros [?|?] | by left].
Qed.

Lemma attrs_toggleClasses (cs : list string) (e : Elem) :
  attrs (toggleClasses cs e) = attrs e ∧ tag (toggleClasses cs e) = tag e.
Proof.
  unfold toggleClasses. revert e. induction cs as [|c cs IH]; intros e; [done|].
  simpl. destruct (IH (toggleClass1 c e)) as [-> ->].
  unfold toggleClass1, addClass1, removeClass1.
  by repeat destruct (hasClass _ _).
Qed.

(** ** The sidebar toggle *)

Lemma update_elems_run (ps : list path) (f : Elem → Elem) (w : World) :
  update_elems ps f w
  = (Ok tt, mkWorld (map_elems (λ q e, if bool_decide (q ∈ ps) then f e else e) (doc w))
                    (alerts w)).
Proof. done. Qed.

Lemma sidebarCollapse_click_elem (w : World) (p : path) (e : Elem) :
  elem_at (doc w) p = Some e →
  ∃ w', sidebarCollapse_click w = (Ok tt, w')
    ∧ alerts w' = alerts w
    ∧ elem_at (doc w') p
      = Some (if matches (Or (Id "sidebar") (Id "content")) e
              then toggleClass1 "collapsed" e else e).
Proof.
  intros He. eexists. split; [reflexivity|]. split; [done|].
  cbn [doc]. rewrite elem_at_map_elems, He. cbn [fmap option_fmap option_map].
  f_equal. destruct (matches _ e) eqn:Hm.
  - rewrite bool_decide_eq_true_2; [done|]. apply elem_of_select. eauto.
  - rewrite bool_decide_eq_false_2; [done|].
    intros (e' & He' & Hm')%elem_of_select. congruence.
Qed.

(** C5 (as amended): a click flips the collapsed class on the sidebar and
    on the content area alike, so the two agree after the click exactly
    when they agreed before it. *)
Theorem sidebarCollapse_click_flips_both
    (w : World) (ps pc : path) (s c : Elem) :
  elem_at (doc w) ps = Some s → attrs s !! "id" = Some "sidebar" →
  elem_at (doc w) pc = Some c → attrs c !! "id" = Some "content" →
  ∃ w' s' c', sidebarCollapse_click w = (Ok tt, w')
    ∧ elem_at (doc w') ps = Some s' ∧ elem_at (doc w') pc = Some c'
    ∧ hasClass "collapsed" s' = negb (hasClass "collapsed" s)
    ∧ hasClass "collapsed" c' = negb (hasClass "collapsed" c)
    ∧ (hasClass "collapsed" s' = hasClass "collapsed" c'
       ↔ hasClass "collapsed" s = hasClass "collapsed" c).
Proof.
  intros Hs Hids Hc Hidc.
  destruct (sidebarCollapse_click_elem w ps s Hs) as (w' & Hrun & _ & Hs').
  destruct (sidebarCollapse_click_elem w pc c Hc) as (w'' & Hrun' & _ & Hc').
  rewrite Hrun in Hrun'. injection Hrun' as <-.
  assert (matches (Or (Id "sidebar") (Id "content")) s = true) as Hms.
  { simpl. by rewrite (bool_decide_eq_true_2 _ Hids). }
  assert (matches (Or (Id "sidebar") (Id "content")) c = true) as Hmc.
  { simpl. rewrite (bool_decide_eq_true_2 _ Hidc). apply orb_true_r. }
  rewrite Hms in Hs'. rewrite Hmc in Hc'.
  eexists w', _, _. split; [done|]. split; [done|]. split; [done|].
  rewrite !hasClass_toggleClass1. split; [done|]. split; [done|].
  by destruct (hasClass "collapsed" s), (hasClass "collapsed" c).
Qed.

Lemma sidebarCollapse_click_flips_both_witness :
  ∃ w' s' c', sidebarCollapse_click (sidebar_page [] []) = (Ok tt, w')
    ∧ elem_at (doc w') [0%nat] = Some s' ∧ elem_at (doc w') [1%nat] = Some c'
    ∧ hasClass "collapsed" s' = true ∧ hasClass "collapsed" c' = true.
Proof.
  destruct (sidebarCollapse_click_flips_both (sidebar_page [] []) [0%nat] [1%nat]
              (elem "nav" [("id", "sidebar")] [])
              (elem "div" [("id", "content")] []))
    as (w' & s' & c' & Hrun & Hs & Hc & Hs' & Hc' & _).
  - reflexivity.
  - reflexivity.
  - reflexivity.
  - reflexivity.
  - exists w', s', c'. split; [exact Hrun|]. split; [exact Hs|].
    split; [exact Hc|]. split; [exact Hs' | exact Hc'].
Defined.

(** C5 (as stated) fails: with the class on the sidebar only, the click
    moves it to the content area only, and the two still differ. *)
Lemma sidebarCollapse_click_keeps_difference :
  ∃ w' s' c',
    sidebarCollapse_click (sidebar_page ["collapsed"] []) = (Ok tt, w')
    ∧ elem_at (doc w') [0%nat] = Some s' ∧ elem_at (doc w') [1%nat] = Some c'
    ∧ hasClass "collapsed" s' = false ∧ hasClass "collapsed" c' = true.
Proof. do 3 eexists. split_and!; reflexivity. Qed.

(** ** The insurance-code field *)

Lemma get_value_run (w : World) (this : path) (e : Elem) :
  elem_at (doc w) this = Some e → is_file_input e = false →
  get_value this w = (Ok (value e), w).
Proof.
  intros He Hf. unfold get_value.
  by rewrite bind_run, (elem_of_this_run _ _ _ He), Hf.
Qed.

(** C8: on a field whose type stores the upper-cased text as it is
    assigned, as a text field does, the value read after the handler is the
    upper-case transform, the engine's own, of the value read before it.
    Nothing is alerted. *)
Theorem InsuranceCode_input_uppercases {browser : Platform}
    (w : World) (this : path) (e : Elem) :
  elem_at (doc w) this = Some e → is_file_input e = false →
  sanitize e (toUpperCase (value e)) = toUpperCase (value e) →
  ∃ v w', get_value this w = (Ok v, w)
    ∧ InsuranceCode_input this w = (Ok tt, w')
    ∧ get_value this w' = (Ok (toUpperCase v), w')
    ∧ alerts w' = alerts w.
Proof.
  intros He Hf Hkept. exists (value e). eexists.
  split; [by apply get_value_run|]. split.
  - unfold InsuranceCode_input.
    rewrite bind_run, (get_value_run _ _ _ He Hf).
    unfold set_value. rewrite bind_run, (elem_of_this_run _ _ _ He), Hf, Hkept.
    apply update_elems_run.
  - split; [|done].
    apply (get_value_run _ _ (with_value (toUpperCase (value e)) e)); [|done].
    cbn [doc]. rewrite elem_at_map_elems, He. cbn.
    rewrite bool_decide_eq_true_2; [done | by apply list_elem_of_singleton].
Qed.

Lemma InsuranceCode_input_uppercases_witness :
  ∃ w', InsuranceCode_input [0%nat] (code_page "ab-12x") = (Ok tt, w')
    ∧ get_value [0%nat] w' = (Ok "AB-12X", w').
Proof.
  destruct (InsuranceCode_input_uppercases (code_page "ab-12x") [0%nat]
              (mkElem "input" {["name" := "InsuranceCode"]} [] false "ab-12x" [] []))
    as (v & w' & Hv & Hrun & Hafter & _).
  - reflexivity.
  - reflexivity.
  - reflexivity.
  - exists w'. split; [exact Hrun|].
    injection Hv as <-. exact Hafter.
Defined.

(** ** The table loop *)

Lemma enhance_idemp (e : Elem) : enhance (enhance e) = enhance e.
Proof.
  unfold enhance at 2. case_bool_decide as H.
  - unfold enhance. by rewrite bool_decide_eq_true_2.
  - unfold enhance at 1. rewrite bool_decide_eq_true_2.
    + unfold enhance. rewrite bool_decide_eq_false_2; [done | by intros []].
    + simpl. by destruct (dataTables e).
Qed.

Lemma tag_enhance (e : Elem) : tag (enhance e) = tag e.
Proof. unfold enhance. by case_bool_decide. Qed.

Lemma init_table_run (w : World) (this : path) (e : Elem) :
  elem_at (doc w) this = Some e →
  ∃ w', init_table this w = (Ok tt, w')
    ∧ steps (λ q x, if bool_decide (q = this) then enhance x else x) w w'.
Proof.
  intros He. unfold init_table, isDataTable.
  rewrite !bind_run, (elem_of_this_run _ _ _ He).
  rewrite ret_run. destruct (bool_decide (dataTables e ≠ [])) eqn:Hen; cbn [negb].
  - exists w. split; [done|]. split; [done|]. intros q.
    destruct (decide (q = this)) as [->|Hq].
    + rewrite bool_decide_eq_true_2 by done.
      rewrite He. simpl. unfold enhance. by rewrite Hen.
    + rewrite bool_decide_eq_false_2 by done. by destruct (elem_at _ q).
  - eexists. split; [reflexivity|]. split; [done|]. intros q.
    cbn [doc]. rewrite elem_at_map_elems.
    destruct (elem_at (doc w) q) as [x|] eqn:Hx; [|done]. simpl. f_equal.
    destruct (decide (q = this)) as [->|Hq].
    + rewrite !bool_decide_eq_true_2 by (done || apply list_elem_of_here).
      assert (x = e) as -> by congruence. unfold enhance. by rewrite Hen.
    + rewrite !bool_decide_eq_false_2;
        [done | done | by intros ?%list_elem_of_singleton].
Qed.

Lemma each_init_table_run (ps : list path) (w : World) :
  (∀ p, p ∈ ps → is_Some (elem_at (doc w) p)) →
  ∃ w', each ps init_table w = (Ok tt, w')
    ∧ steps (λ q x, if bool_decide (q ∈ ps) then enhance x else x) w w'.
Proof.
  revert w. induction ps as [|p ps IH]; intros w Hps.
  - exists w. split; [done|]. split; [done|]. intros q.
    rewrite bool_decide_eq_false_2 by apply not_elem_of_nil.
    by destruct (elem_at _ q).
  - destruct (Hps p) as [e He]; [apply list_elem_of_here|].
    destruct (init_table_run w p e He) as (w1 & Hrun1 & Halerts1 & Hstep1).
    destruct (IH w1) as (w' & Hrun & Halerts & Hstep).
    { intros p' Hp'. rewrite Hstep1. apply fmap_is_Some, Hps.
      by apply list_elem_of_further. }
    exists w'. split; [|split].
    + cbn [each]. by rewrite bind_run, Hrun1.
    + congruence.
    + intros q. rewrite Hstep, Hstep1.
      destruct (elem_at (doc w) q) as [x|]; [|done]. simpl. f_equal.
      rewrite (bool_decide_ext (q ∈ p :: ps) (q = p ∨ q ∈ ps))
        by apply elem_of_cons.
      repeat case_bool_decide; try done; try tauto.
      apply enhance_idemp.
Qed.

Lemma ready_run (w : World) :
  ∃ w', ready w = (Ok tt, w')
    ∧ steps (λ _ x, if bool_decide (tag x = "table") then enhance x else x) w w'.
Proof.
  destruct (each_init_table_run (select (matches (Tag "table")) (doc w)) w)
    as (w' & Hrun & Halerts & Hstep).
  { intros p (e & -> & _)%elem_of_select. eauto. }
  exists w'. split; [|split].
  - unfold ready. by rewrite bind_run.
  - done.
  - intros q. rewrite Hstep.
    destruct (elem_at (doc w) q) as [x|] eqn:Hx; [|done]. simpl. f_equal.
    apply (f_equal (λ b : bool, if b then enhance x else x)).
    apply bool_decide_ext. rewrite elem_of_select. split.
    + intros (e & He & Hm). simpl in Hm. apply bool_decide_eq_true_1 in Hm.
      congruence.
    + intros Ht. exists x. split; [done|]. simpl. by apply bool_decide_eq_true_2.
Qed.

Lemma times_ready_run (n : nat) (w : World) :
  ∃ w', times (S n) ready w = (Ok tt, w')
    ∧ steps (λ _ x, if bool_decide (tag x = "table") then enhance x else x) w w'.
Proof.
  revert w. induction n as [|n IH]; intros w.
  - destruct (ready_run w) as (w' & Hrun & Hsteps).
    exists w'. split; [|done].
    cbn [times]. by rewrite bind_run, Hrun.
  - destruct (ready_run w) as (w1 & Hrun1 & Halerts1 & Hstep1).
    destruct (IH w1) as (w' & Hrun & Halerts & Hstep).
    exists w'. split; [|split].
    + change (times (S (S n)) ready) with (ready;; times (S n) ready).
      by rewrite bind_run, Hrun1.
    + congruence.
    + intros q. rewrite Hstep, Hstep1.
      destruct (elem_at (doc w) q) as [x|]; [|done]. simpl. f_equal.
      destruct (decide (tag x = "table")) as [Ht|Ht].
      * rewrite (bool_decide_eq_true_2 (tag x = "table")) by done.
        rewrite bool_decide_eq_true_2 by by rewrite tag_enhance.
        apply enhance_idemp.
      * rewrite (bool_decide_eq_false_2 (tag x = "table")) by done.
        by rewrite bool_decide_eq_false_2.
Qed.

(** C6: however often the initialiser runs, once or more, a table of the
    page that was not enhanced before ends with exactly one enhancement,
    the script's options, and a table that was already enhanced is left as
    it was: when the query reports a table as enhanced, the loop body skips
    the call and changes nothing. *)
Theorem ready_enhances_once (w : World) (n : nat) (p : path) (e : Elem) :
  elem_at (doc w) p = Some e → tag e = "table" →
  ∃ w' e', times (S n) ready w = (Ok tt, w')
    ∧ elem_at (doc w') p = Some e'
    ∧ (dataTables e = [] → dataTables e' = [table_options])
    ∧ (dataTables e ≠ [] → e' = e)
    ∧ (isDataTable p w = (Ok true, w) → init_table p w = (Ok tt, w)).
Proof.
  intros He Ht.
  destruct (times_ready_run n w) as (w' & Hrun & _ & Hstep).
  exists w', (enhance e). split; [done|]. split; [|split; [|split]].
  - rewrite Hstep, He. simpl. by rewrite bool_decide_eq_true_2.
  - intros Hnil. unfold enhance. rewrite bool_decide_eq_false_2 by congruence.
    simpl. by rewrite Hnil.
  - intros Hen. unfold enhance. by rewrite bool_decide_eq_true_2.
  - unfold init_table. rewrite bind_run. by intros ->.
Qed.

Lemma ready_enhances_once_witness :
  ∃ w' e', times 3 ready tables_page = (Ok tt, w')
    ∧ elem_at (doc w') [1%nat; 0%nat] = Some e'
    ∧ dataTables e' = [table_options].
Proof.
  destruct (ready_enhances_once tables_page 2 [1%nat; 0%nat]
              (elem "table" [] ["table"]))
    as (w' & e' & Hrun & He' & Hnew & _).
  - reflexivity.
  - reflexivity.
  - exists w', e'. split; [exact Hrun|]. split; [exact He'|].
    apply Hnew. reflexivity.
Defined.

(** ** The submit guard *)

Lemma elem_at_app (d n : Node) (p r : path) :
  node_at d p = Some n → elem_at d (p ++ r) = elem_at n r.
Proof. intros H. unfold elem_at. by rewrite node_at_app, H. Qed.

Lemma elem_of_find1 (d : Node) (s : Selector) (p q : path) :
  q ∈ find1 d s p
  ↔ ∃ r e, q = p ++ r ∧ r ≠ [] ∧ elem_at d q = Some e ∧ matches s e = true.
Proof.
  unfold find1. destruct (node_at d p) as [n|] eqn:Hn.
  - rewrite list_elem_of_fmap. split.
    + intros (r & -> & (Hr & e & He & Hm)%elem_of_select_below).
      exists r, e. by rewrite (elem_at_app _ _ _ _ Hn).
    + intros (r & e & -> & Hr & He & Hm). exists r. split; [done|].
      apply elem_of_select_below. split; [done|]. exists e.
      by rewrite <-(elem_at_app _ _ _ _ Hn).
  - split; [by intros ?%elem_of_nil|].
    intros (r & e & -> & _ & He & _). unfold elem_at in He.
    by rewrite node_at_app, Hn in He.
Qed.

Lemma node_at_replace_kids (sel : path → bool) (new : list Node) (d : Node)
    (q : path) (e : Elem) :
  elem_at d q = Some e → sel q = true →
  (∀ q', q' `prefix_of` q → sel q' = true → q' = q) →
  node_at (replace_kids sel new d) q = Some (El e new).
Proof.
  revert sel d. induction q as [|i r IH]; intros sel d He Hsel Hout.
  - destruct d as [s|e' kids]; [done|]. injection He as ->.
    simpl. by rewrite Hsel.
  - destruct d as [s|e' kids]; [done|]. rewrite elem_at_cons in He.
    destruct (kids !! i) as [k|] eqn:Hk; [|done]. simpl in He.
    assert (sel [] = false) as Hroot.
    { apply not_true_iff_false. intros H.
      by specialize (Hout [] (prefix_nil _) H). }
    simpl. rewrite Hroot. simpl. rewrite imap_from_lookup, Hk. simpl.
    apply IH; [done..|].
    intros q' Hpre Hq'. specialize (Hout (i :: q') (prefix_cons _ _ _ Hpre) Hq').
    by injection Hout.
Qed.

Lemma elem_at_replace_kids (sel : path → bool) (new : list Node) (d : Node)
    (q : path) :
  (∀ q', q' `prefix_of` q → q' ≠ q → sel q' = false) →
  elem_at (replace_kids sel new d) q = elem_at d q.
Proof.
  revert sel d. induction q as [|i r IH]; intros sel d Hout.
  - destruct d as [s|e kids]; [done|]. simpl. by destruct (sel []).
  - destruct d as [s|e kids]; [done|]. simpl.
    rewrite (Hout [] (prefix_nil _)) by done.
    rewrite !elem_at_cons, imap_from_lookup.
    destruct (kids !! i) as [k|]; [|done]. simpl. apply IH.
    intros q' Hpre Hne. apply Hout; [by apply prefix_cons | congruence].
Qed.

Lemma find_this_run (s : Selector) (this : path) (w : World) :
  find s [this] w = (Ok (find1 (doc w) s this), w).
Proof.
  unfold find. rewrite bind_run. cbv [get_doc]. rewrite ret_run.
  do 2 f_equal. apply (bind_singleton (find1 (doc w) s)).
Qed.

Lemma form_submit_run (w : World) (this : path) :
  form_submit this w
  = (Ok tt,
     mkWorld
       (replace_kids (λ q, bool_decide (q ∈ submit_buttons w this)) processing_markup
          (map_elems (λ q e, if bool_decide (q ∈ submit_buttons w this)
                             then set_disabled true e else e) (doc w)))
       (alerts w)).
Proof. unfold form_submit. by rewrite bind_run, find_this_run. Qed.

Lemma matches_submit_button (b : Elem) :
  matches (TagAttr "button" "type" "submit") b = true
  ↔ tag b = "button" ∧ toLowerCase <$> attrs b !! "type" = Some "submit".
Proof.
  cbn [matches].
  change (bool_decide ("type" ∈ case_insensitive_attributes)) with true.
  cbv iota. change (toLowerCase "submit") with "submit".
  rewrite andb_true_iff, !bool_decide_eq_true. done.
Qed.

(** C9: a button whose type attribute is submit, in any letter case, found
    inside the form that received the event, and not inside another such
    button, which a parsed document never has, is after the handler
    disabled, in its property and in its attribute, and is otherwise the
    button it was; its only content is the processing indicator: an i
    element with the classes fas, fa-spinner and fa-spin, followed by the
    text " Processing...".  The elements outside that form are as they
    were. *)
Theorem form_submit_disables (w : World) (this r : path) (b : Elem) :
  r ≠ [] →
  elem_at (doc w) (this ++ r) = Some b →
  tag b = "button" → toLowerCase <$> attrs b !! "type" = Some "submit" →
  (∀ q', q' ∈ submit_buttons w this → q' `prefix_of` this ++ r → q' = this ++ r) →
  ∃ w' b', form_submit this w = (Ok tt, w')
    ∧ node_at (doc w') (this ++ r)
      = Some (El b' [ El (mkElem "i" ∅ ["fas"; "fa-spinner"; "fa-spin"]
                            false "" [] []) [];
                      Text " Processing..." ])
    ∧ b' = set_disabled true b
    ∧ disabled b' = true ∧ attrs b' !! "disabled" = Some ""
    ∧ alerts w' = alerts w
    ∧ (∀ q', ¬ this `prefix_of` q' → elem_at (doc w') q' = elem_at (doc w) q').
Proof.
  intros Hr Hb Htag Htype Hout.
  assert (Hq : this ++ r ∈ submit_buttons w this).
  { apply elem_of_find1. exists r, b. split_and!; [done..|].
    by apply matches_submit_button. }
  eexists _, (set_disabled true b).
  split; [apply form_submit_run|].
  split; [|split_and!; [done|done|apply lookup_insert_eq|done|]].
  - cbn [doc]. apply (node_at_replace_kids _ processing_markup).
    + rewrite elem_at_map_elems, Hb. cbn [fmap option_fmap option_map].
      by rewrite bool_decide_eq_true_2.
    + by apply bool_decide_eq_true_2.
    + intros q' Hpre Hq'%bool_decide_eq_true_1. by apply Hout.
  - intros q' Hout'.
    assert (Hnot : ∀ p, p `prefix_of` q' → p ∉ submit_buttons w this).
    { intros p [k ->] (r' & _ & -> & _)%elem_of_find1. apply Hout'.
      exists (r' ++ k). by rewrite app_assoc. }
    cbn [doc]. rewrite elem_at_replace_kids.
    + rewrite elem_at_map_elems.
      rewrite bool_decide_eq_false_2 by by apply Hnot.
      by destruct (elem_at (doc w) q').
    + intros p Hpre _. apply bool_decide_eq_false_2. by apply Hnot.
Qed.

Lemma form_submit_disables_witness :
  ∃ w' b', form_submit [0%nat] form_page = (Ok tt, w')
    ∧ node_at (doc w') [0%nat; 1%nat]
      = Some (El b' [ El (mkElem "i" ∅ ["fas"; "fa-spinner"; "fa-spin"]
                            false "" [] []) [];
                      Text " Processing..." ])
    ∧ disabled b' = true ∧ attrs b' !! "disabled" = Some "".
Proof.
  destruct (form_submit_disables form_page [0%nat] [1%nat]
              (elem "button" [("type", "submit")] ["btn"]))
    as (w' & b' & Hrun & Hnode & _ & Hdis & Hattr & _ & _).
  - discriminate.
  - reflexivity.
  - reflexivity.
  - reflexivity.
  - intros q' Hq' _. apply list_elem_of_singleton in Hq'. exact Hq'.
  - exists w', b'. split; [exact Hrun|]. split; [exact Hnode|].
    split; [exact Hdis | exact Hattr].
Defined.

(** The selector finds the button whatever the letter case of its type. *)
Example submit_buttons_any_case :
  submit_buttons
    (mkWorld (El (elem "form" [] [])
                [El (elem "button" [("type", "SUBMIT")] []) []]) [])
    []
  = [[0%nat]].
Proof. reflexivity. Qed.

(** ** The password toggle *)

Lemma find1_map_elems (s : Selector) (f : path → Elem → Elem) (d : Node) (p : path) :
  (∀ q e, matches s (f q e) = matches s e) →
  find1 (map_elems f d) s p = find1 d s p.
Proof.
  intros Hf. unfold find1. rewrite node_at_map_elems.
  destruct (node_at d p) as [n|]; simpl; [|done].
  by rewrite select_below_map_elems.
Qed.

Lemma closest1_map_elems (s : Selector) (f : path → Elem → Elem) (d : Node) (p : path) :
  (∀ q e, matches s (f q e) = matches s e) →
  closest1 (map_elems f d) s p = closest1 d s p.
Proof.
  intros Hf. unfold closest1. f_equal. apply list_filter_iff. intros q.
  unfold matches_at. rewrite elem_at_map_elems.
  destruct (elem_at d q); simpl; [by rewrite Hf | done].
Qed.

Lemma closest_this_run (s : Selector) (this : path) (w : World) :
  closest s [this] w = (Ok (option_list (closest1 (doc w) s this)), w).
Proof.
  unfold closest. rewrite bind_run. cbv [get_doc]. rewrite ret_run.
  do 2 f_equal. apply (bind_singleton (λ p, option_list (closest1 (doc w) s p))).
Qed.

Lemma toggle_password_click_run (w : World) (this : path) :
  let inputs := password_inputs w this in
  let type := toggled_type (first_type w this) in
  let d1 := map_elems (λ q e, if bool_decide (q ∈ inputs)
                              then with_attrs (<["type" := type]> (attrs e)) e
                              else e) (doc w) in
  toggle_password_click this w
  = (Ok tt,
     mkWorld (map_elems (λ q e, if bool_decide (q ∈ find1 d1 (Tag "i") this)
                                then toggleClasses ["fa-eye"; "fa-eye-slash"] e
                                else e) d1)
             (alerts w)).
Proof.
  intros inputs type d1. unfold toggle_password_click.
  rewrite !bind_run, closest_this_run.
  change (find (Tag "input") (option_list (closest1 (doc w) (Class "input-group") this)) w)
    with (Ok inputs, w).
  cbv beta iota. rewrite bind_run.
  change (attr "type" inputs w) with (Ok (first_type w this), w).
  cbv beta iota zeta. fold (toggled_type (first_type w this)). fold type.
  rewrite bind_run.
  change (set_attr "type" type inputs w) with (Ok inputs, mkWorld d1 (alerts w)).
  cbv beta iota. by rewrite !bind_run, find_this_run.
Qed.

Lemma hasClass_toggle_glyphs (c : string) (e : Elem) :
  hasClass c (toggleClasses ["fa-eye"; "fa-eye-slash"] e)
  = if bool_decide (c = "fa-eye" ∨ c = "fa-eye-slash")
    then negb (hasClass c e) else hasClass c e.
Proof.
  unfold toggleClasses. cbn [foldl].
  destruct (decide (c = "fa-eye")) as [->|Hne1].
  - rewrite bool_decide_eq_true_2 by by left.
    rewrite hasClass_toggleClass1_ne by done. apply hasClass_toggleClass1.
  - destruct (decide (c = "fa-eye-slash")) as [->|Hne2].
    + rewrite bool_decide_eq_true_2 by by right.
      rewrite hasClass_toggleClass1. f_equal.
      by apply hasClass_toggleClass1_ne.
    + rewrite bool_decide_eq_false_2 by by intros [?|?].
      by rewrite !hasClass_toggleClass1_ne.
Qed.

Lemma attrs_click_effect (inputs icons : jQ) (ty : string) (q : path) (e : Elem) :
  attrs (click_effect inputs icons ty q e) !! "type"
  = if bool_decide (q ∈ inputs) then Some ty else attrs e !! "type".
Proof.
  unfold click_effect. cbv zeta.
  assert (∀ x, attrs (if bool_decide (q ∈ icons)
                      then toggleClasses ["fa-eye"; "fa-eye-slash"] x else x)
               = attrs x) as ->.
  { intros x. destruct (bool_decide _); [apply attrs_toggleClasses | done]. }
  destruct (bool_decide (q ∈ inputs)); [|done].
  simpl. apply lookup_insert_eq.
Qed.

Lemma hasClass_click_effect (inputs icons : jQ) (ty : string) (q : path)
    (e : Elem) (c : string) :
  hasClass c (click_effect inputs icons ty q e)
  = if bool_decide (q ∈ icons) && bool_decide (c = "fa-eye" ∨ c = "fa-eye-slash")
    then negb (hasClass c e) else hasClass c e.
Proof.
  unfold click_effect. cbv zeta.
  assert (∀ x, hasClass c (if bool_decide (q ∈ inputs)
                           then with_attrs x e else e) = hasClass c e) as Hin.
  { intros x. by destruct (bool_decide _). }
  destruct (bool_decide (q ∈ icons)); cbn [andb]; [|apply Hin].
  rewrite hasClass_toggle_glyphs. by rewrite Hin.
Qed.

Lemma toggle_password_click_spec (w : World) (this : path) :
  ∃ w', toggle_password_click this w = (Ok tt, w')
    ∧ steps (click_effect (password_inputs w this) (password_icons w this)
               (toggled_type (first_type w this))) w w'
    ∧ password_inputs w' this = password_inputs w this
    ∧ password_icons w' this = password_icons w this.
Proof.
  pose proof (toggle_password_click_run w this) as Hrun. cbv zeta in Hrun.
  set (inputs := password_inputs w this) in *.
  set (type := toggled_type (first_type w this)) in *.
  set (f1 := λ (q : path) (e : Elem),
         if bool_decide (q ∈ inputs)
         then with_attrs (<["type" := type]> (attrs e)) e else e) in *.
  assert (Htag1 : ∀ t q e, matches (Tag t) (f1 q e) = matches (Tag t) e).
  { intros t q e. unfold f1. by destruct (bool_decide _). }
  assert (Hcls1 : ∀ c q e, matches (Class c) (f1 q e) = matches (Class c) e).
  { intros c q e. unfold f1. by destruct (bool_decide _). }
  rewrite (find1_map_elems _ f1) in Hrun by apply Htag1.
  fold (password_icons w this) in Hrun.
  set (icons := password_icons w this) in *.
  set (f2 := λ (q : path) (e : Elem),
         if bool_decide (q ∈ icons)
         then toggleClasses ["fa-eye"; "fa-eye-slash"] e else e) in *.
  assert (Htag2 : ∀ t q e, matches (Tag t) (f2 q e) = matches (Tag t) e).
  { intros t q e. unfold f2. destruct (bool_decide _); [|done]. cbn [matches].
    by destruct (attrs_toggleClasses ["fa-eye"; "fa-eye-slash"] e) as [_ ->]. }
  assert (Hcls2 : ∀ q e, matches (Class "input-group") (f2 q e)
                         = matches (Class "input-group") e).
  { intros q e. unfold f2. destruct (bool_decide _); [|done]. cbn [matches].
    rewrite hasClass_toggle_glyphs. by rewrite bool_decide_eq_false_2 by by intros [?|?]. }
  eexists. split; [exact Hrun|]. split; [|split].
  - split; [done|]. intros q. cbn [doc]. rewrite !elem_at_map_elems.
    by destruct (elem_at (doc w) q).
  - unfold password_inputs. cbn [doc].
    rewrite !closest1_map_elems by (apply Hcls2 || apply Hcls1).
    unfold inputs, password_inputs.
    destruct (closest1 (doc w) (Class "input-group") this) as [g|]; [|done].
    change (option_list (Some g)) with [g]. rewrite !(bind_singleton (find1 _ _)).
    by rewrite !find1_map_elems by (apply Htag2 || apply Htag1).
  - unfold icons, password_icons. cbn [doc].
    by rewrite !find1_map_elems by (apply Htag2 || apply Htag1).
Qed.

Lemma password_inputs_elem (w : World) (this q : path) :
  q ∈ password_inputs w this → is_Some (elem_at (doc w) q).
Proof.
  unfold password_inputs. rewrite list_elem_of_bind.
  intros (g & (r & e & _ & _ & He & _)%elem_of_find1 & _). eauto.
Qed.

Lemma first_type_after (w w' : World) (this q : path) (icons : jQ) (ty : string) :
  steps (click_effect (password_inputs w this) icons ty) w w' →
  password_inputs w' this = password_inputs w this →
  q ∈ password_inputs w this →
  first_type w' this = Some ty.
Proof.
  intros [_ Hstep] Hsame Hq. unfold first_type. rewrite Hsame.
  destruct (password_inputs w this) as [|p ps] eqn:Hps; [by apply elem_of_nil in Hq|].
  cbn [head]. simpl.
  destruct (password_inputs_elem w this p) as [e He].
  { rewrite Hps. apply list_elem_of_here. }
  rewrite Hstep, He. simpl. rewrite attrs_click_effect.
  by rewrite bool_decide_eq_true_2 by apply list_elem_of_here.
Qed.

Lemma toggled_type_twice (t : option string) :
  t = Some "password" ∨ t = Some "text" →
  Some (toggled_type (Some (toggled_type t))) = t.
Proof. by intros [-> | ->]. Qed.

(** C7 (as amended): a click sets the type of every associated input to
    text if the type read from the first of them is password and to
    password otherwise, and flips each of the classes fa-eye and
    fa-eye-slash on every icon of the toggle.  A second click restores the
    presence of the two classes on every icon, and restores the type of an
    input whose type was the one read and was password or text.  After the
    two clicks every associated input has the type password if the type
    read at the first click was password, and the type text otherwise. *)
Theorem toggle_password_click_twice (w : World) (this : path) :
  ∃ w1 w2,
    toggle_password_click this w = (Ok tt, w1)
    ∧ toggle_password_click this w1 = (Ok tt, w2)
    ∧ (∀ q e, q ∈ password_inputs w this → elem_at (doc w) q = Some e →
         ∃ e1 e2, elem_at (doc w1) q = Some e1 ∧ elem_at (doc w2) q = Some e2
           ∧ attrs e1 !! "type" = Some (toggled_type (first_type w this))
           ∧ attrs e2 !! "type" = Some (toggled_type (attrs e1 !! "type"))
           ∧ (attrs e !! "type" = first_type w this →
              attrs e !! "type" = Some "password" ∨ attrs e !! "type" = Some "text" →
              attrs e2 !! "type" = attrs e !! "type")
           ∧ (first_type w this = Some "password" →
              attrs e2 !! "type" = Some "password")
           ∧ (first_type w this ≠ Some "password" →
              attrs e2 !! "type" = Some "text"))
    ∧ (∀ q e, q ∈ password_icons w this → elem_at (doc w) q = Some e →
         ∃ e1 e2, elem_at (doc w1) q = Some e1 ∧ elem_at (doc w2) q = Some e2
           ∧ hasClass "fa-eye" e1 = negb (hasClass "fa-eye" e)
           ∧ hasClass "fa-eye-slash" e1 = negb (hasClass "fa-eye-slash" e)
           ∧ hasClass "fa-eye" e2 = hasClass "fa-eye" e
           ∧ hasClass "fa-eye-slash" e2 = hasClass "fa-eye-slash" e).
Proof.
  destruct (toggle_password_click_spec w this)
    as (w1 & Hrun1 & Hsteps1 & Hinputs1 & Hicons1).
  destruct (toggle_password_click_spec w1 this)
    as (w2 & Hrun2 & Hsteps2 & _ & _).
  rewrite Hinputs1, Hicons1 in Hsteps2.
  exists w1, w2. split; [done|]. split; [done|].
  pose proof Hsteps1 as [_ Hstep1]. pose proof Hsteps2 as [_ Hstep2]. split.
  - intros q e Hq He.
    rewrite (first_type_after w w1 this q _ _ Hsteps1 Hinputs1 Hq) in Hstep2.
    eexists _, _. split; [by rewrite Hstep1, He|].
    split; [by rewrite Hstep2, Hstep1, He|].
    rewrite !attrs_click_effect, !bool_decide_eq_true_2 by done.
    split; [done|]. split; [done|]. split; [|split].
    + intros Hfirst Htype. rewrite Hfirst in *. by apply toggled_type_twice.
    + by intros ->.
    + intros Hfirst. unfold toggled_type at 2.
      by rewrite bool_decide_eq_false_2.
  - intros q e Hq He.
    eexists _, _. split; [by rewrite Hstep1, He|].
    split; [by rewrite Hstep2, Hstep1, He|].
    rewrite !hasClass_click_effect, !(bool_decide_eq_true_2 (q ∈ _)) by done.
    change (bool_decide ("fa-eye" = "fa-eye" ∨ "fa-eye" = "fa-eye-slash")) with true.
    change (bool_decide ("fa-eye-slash" = "fa-eye" ∨ "fa-eye-slash" = "fa-eye-slash"))
      with true.
    cbn [andb]. by rewrite !negb_involutive.
Qed.

Lemma toggle_password_click_twice_witness :
  ∃ w1 w2 e1 e2,
    toggle_password_click [1%nat] (password_page [("type", "password")] ["fas"; "fa-eye"])
      = (Ok tt, w1)
    ∧ toggle_password_click [1%nat] w1 = (Ok tt, w2)
    ∧ elem_at (doc w1) [0%nat] = Some e1 ∧ elem_at (doc w2) [0%nat] = Some e2
    ∧ attrs e1 !! "type" = Some "text"
    ∧ attrs e2 !! "type" = Some "password".
Proof.
  destruct (toggle_password_click_twice
              (password_page [("type", "password")] ["fas"; "fa-eye"]) [1%nat])
    as (w1 & w2 & Hrun1 & Hrun2 & Hinputs & _).
  destruct (Hinputs [0%nat] (elem "input" [("type", "password")] ["form-control"]))
    as (e1 & e2 & He1 & He2 & Ht1 & _ & Ht2 & _ & _).
  - apply list_elem_of_here.
  - reflexivity.
  - exists w1, w2, e1, e2. split; [exact Hrun1|]. split; [exact Hrun2|].
    split; [exact He1|]. split; [exact He2|]. split; [exact Ht1|].
    apply Ht2; [reflexivity | left; reflexivity].
Defined.

(** C7 (as stated) fails: an input of type email is set to password by the
    first click and to text by the second, not back to email. *)
Lemma toggle_password_click_twice_email :
  ∃ w1 w2 e e2,
    toggle_password_click [1%nat] (password_page [("type", "email")] ["fas"; "fa-eye"])
      = (Ok tt, w1)
    ∧ toggle_password_click [1%nat] w1 = (Ok tt, w2)
    ∧ elem_at (doc (password_page [("type", "email")] ["fas"; "fa-eye"])) [0%nat]
      = Some e
    ∧ elem_at (doc w2) [0%nat] = Some e2
    ∧ attrs e !! "type" = Some "email"
    ∧ attrs e2 !! "type" = Some "text".
Proof.
  set (w := password_page [("type", "email")] ["fas"; "fa-eye"]).
  exists (toggle_password_click [1%nat] w).2.
  exists (toggle_password_click [1%nat] (toggle_password_click [1%nat] w).2).2.
  exists (elem "input" [("type", "email")] ["form-control"]).
  exists (elem "input" [("type", "text")] ["form-control"]).
  split_and!; vm_compute; reflexivity.
Qed.

(** ** The upload check on sample files *)

Lemma file_change_size_rule_witness :
  (∃ w' shown,
     file_change [0%nat] (upload_page [File.mk "members.xls" (12 * MiB)]) = (Ok tt, w')
     ∧ alerts w' = size_message :: shown
     ∧ selection w' [0%nat] = Some [])
  ∧ (∃ w',
       file_change [0%nat] (upload_page [File.mk "members.xls" (10 * MiB)]) = (Ok tt, w')
       ∧ w' = upload_page [File.mk "members.xls" (10 * MiB)]).
Proof.
  split.
  - destruct (file_change_size_rule
                (upload_page [File.mk "members.xls" (12 * MiB)]) [0%nat]
                (mkElem "input" {["type" := "file"]} [] false ""
                   [File.mk "members.xls" (12 * MiB)] [])
                (File.mk "members.xls" (12 * MiB)) [])
      as [Hbig _]; [reflexivity..|].
    destruct Hbig as (w' & shown & Hrun & Halerts & Hsel); [reflexivity|].
    exists w', shown. split; [exact Hrun|]. split; [exact Halerts | exact Hsel].
  - destruct (file_change_size_rule
                (upload_page [File.mk "members.xls" (10 * MiB)]) [0%nat]
                (mkElem "input" {["type" := "file"]} [] false ""
                   [File.mk "members.xls" (10 * MiB)] [])
                (File.mk "members.xls" (10 * MiB)) [])
      as [_ Hexact]; [reflexivity..|].
    destruct Hexact as (w' & shown & Hrun & _ & _ & Hsame); [reflexivity|].
    exists w'. split; [exact Hrun|].
    apply Hsame. apply (bool_decide_unpack _). vm_compute. exact I.
Defined.

Lemma file_change_extension_rule_witness :
  ∃ w' shown,
    file_change [0%nat] (upload_page [File.mk "scan.tar.PDF" (2 * MiB)]) = (Ok tt, w')
    ∧ alerts w' = shown ++ [extension_message]
    ∧ selection w' [0%nat] = Some [].
Proof.
  destruct (file_change_extension_rule
              (upload_page [File.mk "scan.tar.PDF" (2 * MiB)]) [0%nat]
              (mkElem "input" {["type" := "file"]} [] false ""
                 [File.mk "scan.tar.PDF" (2 * MiB)] [])
              (File.mk "scan.tar.PDF" (2 * MiB)) [])
    as (w' & shown & Hrun & Halerts & Hsel).
  - reflexivity.
  - reflexivity.
  - reflexivity.
  - apply (bool_decide_unpack _). vm_compute. exact I.
  - exists w', shown. split; [exact Hrun|]. split; [exact Halerts | exact Hsel].
Defined.

Lemma file_change_valid_unchanged_witness :
  file_change [0%nat] (upload_page []) = (Ok tt, upload_page [])
  ∧ file_change [0%nat] (upload_page [File.mk "Members.2024.XLSX" (5 * MiB)])
    = (Ok tt, upload_page [File.mk "Members.2024.XLSX" (5 * MiB)]).
Proof.
  split.
  - destruct (file_change_valid_unchanged (upload_page []) [0%nat]
                (mkElem "input" {["type" := "file"]} [] false "" [] []))
      as [Hnone _]; [reflexivity..|].
    apply Hnone. reflexivity.
  - destruct (file_change_valid_unchanged
                (upload_page [File.mk "Members.2024.XLSX" (5 * MiB)]) [0%nat]
                (mkElem "input" {["type" := "file"]} [] false ""
                   [File.mk "Members.2024.XLSX" (5 * MiB)] []))
      as [_ Hvalid]; [reflexivity..|].
    apply (Hvalid (File.mk "Members.2024.XLSX" (5 * MiB)) []).
    + reflexivity.
    + discriminate.
    + apply (bool_decide_unpack _). vm_compute. exact I.
Defined.

Lemma file_change_dotless_witness :
  ∃ w' shown,
    file_change [0%nat] (upload_page [File.mk "Xlsx" (1 * MiB)]) = (Ok tt, w')
    ∧ alerts w' = shown
    ∧ (extension_message ∉ shown).
Proof.
  destruct (file_change_dotless
              (upload_page [File.mk "Xlsx" (1 * MiB)]) [0%nat]
              (mkElem "input" {["type" := "file"]} [] false ""
                 [File.mk "Xlsx" (1 * MiB)] [])
              (File.mk "Xlsx" (1 * MiB)) [])
    as (w' & shown & Hrun & Halerts & Hiff).
  - reflexivity.
  - reflexivity.
  - reflexivity.
  - reflexivity.
  - exists w', shown. split; [exact Hrun|]. split; [exact Halerts|].
    intros Hin. apply Hiff in Hin. apply Hin.
    apply (bool_decide_unpack _). vm_compute. exact I.
Defined.

(** The scenarios listed in the specification. *)
Example scenario_valid :
  file_change [0%nat] (upload_page [File.mk "a.xlsx" (5 * MiB)])
  = (Ok tt, upload_page [File.mk "a.xlsx" (5 * MiB)]).
Proof. reflexivity. Qed.

Example scenario_too_big :
  file_change [0%nat] (upload_page [File.mk "a.xls" (12 * MiB)])
  = (Ok tt, mkWorld (doc (upload_page [])) [size_message]).
Proof. reflexivity. Qed.

Example scenario_wrong_extension :
  file_change [0%nat] (upload_page [File.mk "a.pdf" (2 * MiB)])
  = (Ok tt, mkWorld (doc (upload_page [])) [extension_message]).
Proof. reflexivity. Qed.

Example scenario_both :
  file_change [0%nat] (upload_page [File.mk "a.docx" (15 * MiB)])
  = (Ok tt, mkWorld (doc (upload_page [])) [size_message; extension_message]).
Proof. reflexivity. Qed.

Example scenario_no_file :
  file_change [0%nat] (upload_page []) = (Ok tt, upload_page []).
Proof. reflexivity. Qed.

(** * Further properties of the script *)

(** ** The upload check: what it leaves alone *)

Lemma elem_at_clear_selection_ne (w : World) (this q : path) :
  q ≠ this →
  elem_at (doc (clear_selection this w)) q = elem_at (doc w) q.
Proof.
  intros Hne. unfold clear_selection; simpl. rewrite elem_at_map_elems.
  rewrite bool_decide_eq_false_2 by by intros ?%list_elem_of_singleton.
  by destruct (elem_at (doc w) q).
Qed.

Lemma elem_at_reject_ne (msg : string) (w : World) (this q : path) :
  q ≠ this → elem_at (doc (reject msg this w)) q = elem_at (doc w) q.
Proof. intros Hne. unfold reject. by rewrite elem_at_clear_selection_ne. Qed.

(** On a file input, whatever it holds, the handler returns normally.  It
    keeps the alerts shown before and adds at most the size message and the
    extension message, in that order.  No element other than the input is
    touched, and the input itself is either as it was or has lost its
    files and nothing else. *)
Theorem file_change_frame {browser : Platform} (w : World) (this : path) (e : Elem) :
  elem_at (doc w) this = Some e → is_file_input e = true →
  ∃ w' shown e', file_change this w = (Ok tt, w')
    ∧ alerts w' = alerts w ++ shown
    ∧ shown `sublist_of` [size_message; extension_message]
    ∧ (∀ q, q ≠ this → elem_at (doc w') q = elem_at (doc w) q)
    ∧ elem_at (doc w') this = Some e'
    ∧ (e' = e ∨ e' = with_files [] e).
Proof.
  intros Hthis Hinput. destruct (files e) as [|file rest] eqn:Hfiles.
  - exists w, [], e. rewrite app_nil_r.
    split; [by apply file_change_no_file with e|]. split; [done|].
    split; [apply sublist_nil_l|]. split; [done|]. split; [done | by left].
  - rewrite (file_change_run _ _ _ _ _ Hthis Hinput Hfiles); cbv zeta.
    pose proof (elem_at_reject size_message _ _ _ Hthis) as Hthis1.
    case_bool_decide; destruct (Qgtb _ _).
    + exists (reject size_message this w), [size_message], (with_files [] e).
      split; [done|]. split; [done|].
      split; [apply sublist_skip, sublist_nil_l|].
      split; [intros q Hq; by apply elem_at_reject_ne|].
      split; [done | by right].
    + exists w, [], e. rewrite app_nil_r.
      split; [done|]. split; [done|]. split; [apply sublist_nil_l|].
      split; [done|]. split; [done | by left].
    + exists (reject extension_message this (reject size_message this w)),
        [size_message; extension_message], (with_files [] e).
      split; [done|]. split; [by rewrite !alerts_reject, <-app_assoc|].
      split; [done|].
      split; [intros q Hq; by rewrite !elem_at_reject_ne|].
      split; [|by right].
      by rewrite (elem_at_reject _ _ _ _ Hthis1).
    + exists (reject extension_message this w), [extension_message], (with_files [] e).
      split; [done|]. split; [done|].
      split; [apply sublist_cons, sublist_skip, sublist_nil_l|].
      split; [intros q Hq; by apply elem_at_reject_ne|].
      split; [by apply elem_at_reject | by right].
Qed.

Lemma file_change_frame_witness :
  ∃ w' shown, file_change [0%nat] (upload_page [File.mk "notes.txt" (11 * MiB)])
                = (Ok tt, w')
    ∧ alerts w' = shown
    ∧ shown `sublist_of` [size_message; extension_message]
    ∧ elem_at (doc w') [] = Some (elem "form" [] []).
Proof.
  destruct (file_change_frame (upload_page [File.mk "notes.txt" (11 * MiB)]) [0%nat]
              (mkElem "input" {["type" := "file"]} [] false ""
                 [File.mk "notes.txt" (11 * MiB)] []))
    as (w' & shown & e' & Hrun & Halerts & Hsub & Hframe & _).
  - reflexivity.
  - reflexivity.
  - exists w', shown. split; [exact Hrun|]. split; [exact Halerts|].
    split; [exact Hsub|]. rewrite Hframe; [reflexivity | discriminate].
Defined.

(** ** The upload check: the verdict *)

Lemma app_eq_self_nil {A} (l k : list A) : l = l ++ k → k = [].
Proof.
  intros H. apply (f_equal length) in H. rewrite length_app in H.
  destruct k; [done | simpl in H; lia].
Qed.

(** For a selected file the two rules are independent and exact: the size
    message is shown exactly when the size is above 10485760 bytes, the
    extension message exactly when the lower-cased last part of the name
    is neither xlsx nor xls.  The page is unchanged exactly when no
    message is shown, and the selection is emptied exactly when one is. *)
Theorem file_change_verdict {browser : Platform}
    (w : World) (this : path) (e : Elem) (file : File.t) (rest : list File.t) :
  elem_at (doc w) this = Some e → is_file_input e = true →
  files e = file :: rest →
  ∃ w' shown, file_change this w = (Ok tt, w')
    ∧ alerts w' = alerts w ++ shown
    ∧ (size_message ∈ shown ↔ (10 * MiB < File.size file)%N)
    ∧ (extension_message ∈ shown
       ↔ toLowerCase (substring_after_last "." (File.name file)) ∉ excel_extensions)
    ∧ (shown = [] ↔ w' = w)
    ∧ (shown ≠ [] ↔ selection w' this = Some []).
Proof.
  intros Hthis Hinput Hfiles.
  rewrite (file_change_run _ _ _ _ _ Hthis Hinput Hfiles); cbv zeta.
  pose proof (elem_at_reject size_message _ _ _ Hthis) as Hthis1.
  pose proof (Qgtb_megabytes file) as Hsize.
  assert (Hsel : selection w this ≠ Some []).
  { unfold selection. rewrite Hthis. simpl. by rewrite Hfiles. }
  case_bool_decide as Hext; destruct (Qgtb (megabytes file) 10).
  - exists (reject size_message this w), [size_message].
    split; [done|]. split; [done|]. split_and!.
    + split; [intros _; by apply Hsize | intros _; apply list_elem_of_here].
    + split; [by intros [=]%list_elem_of_singleton | done].
    + split; [done|]. intros H. apply (f_equal alerts) in H.
      rewrite alerts_reject in H. by apply eq_sym, app_eq_self_nil in H.
    + split; [intros _; by eapply selection_reject | done].
  - exists w, []. rewrite app_nil_r. split; [done|]. split; [done|]. split_and!.
    + split; [by intros ?%elem_of_nil|]. intros H%Hsize. done.
    + split; [by intros ?%elem_of_nil | done].
    + done.
    + split; [done|]. intros H. by destruct Hsel.
  - exists (reject extension_message this (reject size_message this w)),
      [size_message; extension_message].
    split; [done|]. split; [by rewrite !alerts_reject, <-app_assoc|]. split_and!.
    + split; [intros _; by apply Hsize | intros _; apply list_elem_of_here].
    + split; [done|]. intros _. apply list_elem_of_further, list_elem_of_here.
    + split; [done|]. intros H. apply (f_equal alerts) in H.
      rewrite !alerts_reject, <-app_assoc in H.
      by apply eq_sym, app_eq_self_nil in H.
    + split; [intros _; by eapply selection_reject | done].
  - exists (reject extension_message this w), [extension_message].
    split; [done|]. split; [done|]. split_and!.
    + split; [by intros [=]%list_elem_of_singleton|]. intros H%Hsize. done.
    + split; [done|]. intros _. apply list_elem_of_here.
    + split; [done|]. intros H. apply (f_equal alerts) in H.
      rewrite alerts_reject in H. by apply eq_sym, app_eq_self_nil in H.
    + split; [intros _; by eapply selection_reject | done].
Qed.

Lemma file_change_verdict_witness :
  ∃ w' shown,
    file_change [0%nat] (upload_page [File.mk "list.xls" (10 * MiB + 1)]) = (Ok tt, w')
    ∧ alerts w' = shown
    ∧ size_message ∈ shown
    ∧ selection w' [0%nat] = Some [].
Proof.
  destruct (file_change_verdict
              (upload_page [File.mk "list.xls" (10 * MiB + 1)]) [0%nat]
              (mkElem "input" {["type" := "file"]} [] false ""
                 [File.mk "list.xls" (10 * MiB + 1)] [])
              (File.mk "list.xls" (10 * MiB + 1)) [])
    as (w' & shown & Hrun & Halerts & Hsize & _ & _ & Hsel).
  - reflexivity.
  - reflexivity.
  - reflexivity.
  - assert (Hin : size_message ∈ shown) by (apply Hsize; reflexivity).
    exists w', shown. split; [exact Hrun|]. split; [exact Halerts|].
    split; [exact Hin|]. apply Hsel. intros ->. by apply elem_of_nil in Hin.
Defined.

(** A second change event on the page the handler left, without a new
    selection in between, shows nothing more and changes nothing: a
    rejected file is gone, an accepted one is accepted again. *)
Theorem file_change_again {browser : Platform} (w : World) (this : path) (e : Elem) :
  elem_at (doc w) this = Some e → is_file_input e = true →
  ∃ w', file_change this w = (Ok tt, w')
    ∧ file_change this w' = (Ok tt, w').
Proof.
  intros Hthis Hinput. destruct (files e) as [|file rest] eqn:Hfiles.
  - exists w. split; by apply file_change_no_file with e.
  - pose proof (file_change_run _ _ _ _ _ Hthis Hinput Hfiles) as Hrun.
    cbv zeta in Hrun.
    pose proof (elem_at_reject size_message _ _ _ Hthis) as Hthis1.
    destruct (bool_decide _), (Qgtb _ _) in Hrun.
    + exists (reject size_message this w). split; [done|].
      by apply file_change_no_file with (with_files [] e).
    + exists w. by split.
    + exists (reject extension_message this (reject size_message this w)).
      split; [done|].
      apply file_change_no_file with (with_files [] e); [|done..].
      by rewrite (elem_at_reject _ _ _ _ Hthis1).
    + exists (reject extension_message this w). split; [done|].
      apply file_change_no_file with (with_files [] e); [|done..].
      by apply elem_at_reject.
Qed.

Lemma file_change_again_witness :
  ∃ w', file_change [0%nat] (upload_page [File.mk "scan.pdf" (3 * MiB)]) = (Ok tt, w')
    ∧ alerts w' = [extension_message]
    ∧ file_change [0%nat] w' = (Ok tt, w').
Proof.
  destruct (file_change_again (upload_page [File.mk "scan.pdf" (3 * MiB)]) [0%nat]
              (mkElem "input" {["type" := "file"]} [] false ""
                 [File.mk "scan.pdf" (3 * MiB)] []))
    as (w' & Hrun & Hagain).
  - reflexivity.
  - reflexivity.
  - exists w'. split; [exact Hrun|]. split; [|exact Hagain].
    assert (Heq : (Ok tt, w')
                  = file_change [0%nat] (upload_page [File.mk "scan.pdf" (3 * MiB)]))
      by (symmetry; exact Hrun).
    vm_compute in Heq. injection Heq as ->. reflexivity.
Defined.

(** When the element is not a file input, its [files] is [null]: reading
    the first file throws before anything is shown or changed. *)
Theorem file_change_not_file_input {browser : Platform} (w : World) (this : path) (e : Elem) :
  elem_at (doc w) this = Some e → is_file_input e = false →
  file_change this w = (Throw "TypeError", w).
Proof.
  intros Hthis Hinput. unfold file_change, get_files.
  by rewrite !bind_run, (elem_of_this_run _ _ _ Hthis), Hinput.
Qed.

Lemma file_change_not_file_input_witness :
  file_change [0%nat] (code_page "ab") = (Throw "TypeError", code_page "ab").
Proof.
  apply (file_change_not_file_input (code_page "ab") [0%nat]
           (mkElem "input" {["name" := "InsuranceCode"]} [] false "ab" [] []));
    reflexivity.
Defined.

(** ** The upload check: names *)

Lemma lower_ascii_dot (c : ascii) :
  Ascii.eqb (lower_ascii c) "." = Ascii.eqb c ".".
Proof. destruct c as [[] [] [] [] [] [] [] []]; reflexivity. Qed.

Lemma contains_toLowerCase (s : string) :
  contains "." (toLowerCase s) = contains "." s.
Proof.
  induction s as [|c s IH]; [done|].
  cbn [toLowerCase map_string contains]. fold (toLowerCase s).
  by rewrite lower_ascii_dot, IH.
Qed.

Lemma substring_after_last_toLowerCase (s : string) :
  substring_after_last "." (toLowerCase s)
  = toLowerCase (substring_after_last "." s).
Proof.
  induction s as [|c s IH]; [done|].
  cbn [toLowerCase map_string substring_after_last]. fold (toLowerCase s).
  rewrite contains_toLowerCase, lower_ascii_dot.
  destruct (contains "." s); [done|]. by destruct (Ascii.eqb c ".").
Qed.

Lemma substring_after_last_app (c : ascii) (pre ext : string) :
  contains c ext = false →
  substring_after_last c (pre +:+ String c ext) = ext.
Proof.
  intros Hext. induction pre as [|c' pre IH]; simpl.
  - by rewrite Hext, Ascii.eqb_refl.
  - assert (contains c (pre +:+ String c ext) = true) as ->; [|done].
    clear IH. induction pre as [|c'' pre IH]; simpl.
    + by rewrite Ascii.eqb_refl.
    + rewrite IH. apply orb_true_r.
Qed.

(** The check does not see the case of a name: two files of the same size
    whose names agree once lower-cased get the same messages. *)
Theorem file_change_case_insensitive {browser : Platform}
    (w1 w2 : World) (this1 this2 : path) (e1 e2 : Elem)
    (file1 file2 : File.t) (rest1 rest2 : list File.t) :
  elem_at (doc w1) this1 = Some e1 → is_file_input e1 = true →
  files e1 = file1 :: rest1 →
  elem_at (doc w2) this2 = Some e2 → is_file_input e2 = true →
  files e2 = file2 :: rest2 →
  File.size file1 = File.size file2 →
  toLowerCase (File.name file1) = toLowerCase (File.name file2) →
  ∃ w1' w2' shown,
    file_change this1 w1 = (Ok tt, w1') ∧ file_change this2 w2 = (Ok tt, w2')
    ∧ alerts w1' = alerts w1 ++ shown ∧ alerts w2' = alerts w2 ++ shown.
Proof.
  intros H1 Hi1 Hf1 H2 Hi2 Hf2 Hsize Hname.
  rewrite (file_change_run _ _ _ _ _ H1 Hi1 Hf1),
    (file_change_run _ _ _ _ _ H2 Hi2 Hf2); cbv zeta.
  rewrite <-!substring_after_last_toLowerCase, Hname.
  assert (megabytes file1 = megabytes file2) as ->.
  { unfold megabytes. by rewrite Hsize. }
  destruct (bool_decide _), (Qgtb _ _).
  - eexists _, _, [size_message]. by split_and!.
  - eexists _, _, []. rewrite !app_nil_r. by split_and!.
  - eexists _, _, [size_message; extension_message].
    split_and!; [done..| |]; by rewrite !alerts_reject, <-app_assoc.
  - eexists _, _, [extension_message]. by split_and!.
Qed.

Lemma file_change_case_insensitive_witness :
  ∃ w1' w2' shown,
    file_change [0%nat] (upload_page [File.mk "Plan.XLSX" (4 * MiB)]) = (Ok tt, w1')
    ∧ file_change [0%nat] (upload_page [File.mk "plan.xlsx" (4 * MiB)]) = (Ok tt, w2')
    ∧ alerts w1' = shown ∧ alerts w2' = shown.
Proof.
  apply (file_change_case_insensitive
           (upload_page [File.mk "Plan.XLSX" (4 * MiB)])
           (upload_page [File.mk "plan.xlsx" (4 * MiB)]) [0%nat] [0%nat]
           (mkElem "input" {["type" := "file"]} [] false ""
              [File.mk "Plan.XLSX" (4 * MiB)] [])
           (mkElem "input" {["type" := "file"]} [] false ""
              [File.mk "plan.xlsx" (4 * MiB)] [])
           (File.mk "Plan.XLSX" (4 * MiB)) (File.mk "plan.xlsx" (4 * MiB)) [] []);
    reflexivity.
Defined.

(** For a name made of any text, a dot and a last part without a dot, only
    the last part counts, whatever dots come before it: the extension
    message is shown exactly when the lower-cased last part is neither
    xlsx nor xls.  A name ending in a dot has the empty last part and is
    always rejected. *)
Theorem file_change_dotted {browser : Platform}
    (w : World) (this : path) (e : Elem) (file : File.t) (rest : list File.t)
    (pre ext : string) :
  elem_at (doc w) this = Some e → is_file_input e = true →
  files e = file :: rest →
  File.name file = pre +:+ "." +:+ ext → contains "." ext = false →
  ∃ w' shown, file_change this w = (Ok tt, w')
    ∧ alerts w' = alerts w ++ shown
    ∧ (extension_message ∈ shown ↔ toLowerCase ext ∉ excel_extensions)
    ∧ (ext = "" → extension_message ∈ shown).
Proof.
  intros Hthis Hinput Hfiles Hname Hext.
  rewrite (file_change_run _ _ _ _ _ Hthis Hinput Hfiles); cbv zeta.
  rewrite Hname.
  change (pre +:+ "." +:+ ext) with (pre +:+ String "." ext).
  rewrite (substring_after_last_app _ _ _ Hext).
  case_bool_decide as Hin; destruct (Qgtb _ _).
  - exists (reject size_message this w), [size_message]. split_and!; [done..| |].
    + split; [by intros [=]%list_elem_of_singleton | done].
    + intros ->. apply (bool_decide_pack _) in Hin. by vm_compute in Hin.
  - exists w, []. rewrite app_nil_r. split_and!; [done..| |].
    + split; [by intros ?%elem_of_nil | done].
    + intros ->. apply (bool_decide_pack _) in Hin. by vm_compute in Hin.
  - exists (reject extension_message this (reject size_message this w)),
      [size_message; extension_message].
    split_and!; [done | by rewrite !alerts_reject, <-app_assoc | |].
    + split; [done|]. intros _. apply list_elem_of_further, list_elem_of_here.
    + intros _. apply list_elem_of_further, list_elem_of_here.
  - exists (reject extension_message this w), [extension_message].
    split_and!; [done..| |].
    + split; [done|]. intros _. apply list_elem_of_here.
    + intros _. apply list_elem_of_here.
Qed.

Lemma file_change_dotted_witness :
  ∃ w' shown,
    file_change [0%nat] (upload_page [File.mk "members.xlsx.bak" (1 * MiB)])
      = (Ok tt, w')
    ∧ alerts w' = shown ∧ extension_message ∈ shown.
Proof.
  destruct (file_change_dotted
              (upload_page [File.mk "members.xlsx.bak" (1 * MiB)]) [0%nat]
              (mkElem "input" {["type" := "file"]} [] false ""
                 [File.mk "members.xlsx.bak" (1 * MiB)] [])
              (File.mk "members.xlsx.bak" (1 * MiB)) [] "members.xlsx" "bak")
    as (w' & shown & Hrun & Halerts & Hiff & _).
  - reflexivity.
  - reflexivity.
  - reflexivity.
  - reflexivity.
  - reflexivity.
  - exists w', shown. split; [exact Hrun|]. split; [exact Halerts|].
    apply Hiff. apply (bool_decide_unpack _). vm_compute. exact I.
Defined.

(** ** The sidebar toggle: frame and second click *)

Lemma with_classes_toggleClass1 (cs : list string) (c : string) (e : Elem) :
  with_classes cs (toggleClass1 c e) = with_classes cs e.
Proof.
  unfold toggleClass1, addClass1, removeClass1. by destruct (hasClass c e).
Qed.

Lemma toggleClass1_fields (c : string) (e : Elem) :
  with_classes (classes e) (toggleClass1 c e) = e.
Proof. rewrite with_classes_toggleClass1. by destruct e. Qed.

(** A click shows no alert and never fails.  An element that is neither
    #sidebar nor #content is left as it is; on those two, nothing but the
    class attribute changes, and in it only the presence of collapsed. *)
Theorem sidebarCollapse_click_frame (w : World) (q : path) (e : Elem) :
  elem_at (doc w) q = Some e →
  ∃ w' e', sidebarCollapse_click w = (Ok tt, w')
    ∧ alerts w' = alerts w
    ∧ elem_at (doc w') q = Some e'
    ∧ with_classes (classes e) e' = e
    ∧ (∀ c, c ≠ "collapsed" → hasClass c e' = hasClass c e)
    ∧ (attrs e !! "id" ≠ Some "sidebar" → attrs e !! "id" ≠ Some "content" →
       e' = e).
Proof.
  intros He. destruct (sidebarCollapse_click_elem w q e He)
    as (w' & Hrun & Halerts & He').
  eexists w', _. split; [done|]. split; [done|]. split; [done|].
  destruct (matches _ e) eqn:Hm.
  - split; [apply toggleClass1_fields|]. split.
    + intros c Hc. by apply hasClass_toggleClass1_ne.
    + intros Hs Hc. simpl in Hm.
      by rewrite !bool_decide_eq_false_2 in Hm.
  - split; [by destruct e|]. done.
Qed.

Lemma sidebarCollapse_click_frame_witness :
  ∃ w' e', sidebarCollapse_click (sidebar_page ["open"] ["wide"]) = (Ok tt, w')
    ∧ elem_at (doc w') [] = Some (elem "body" [] [])
    ∧ elem_at (doc w') [1%nat] = Some e'
    ∧ hasClass "wide" e' = true.
Proof.
  destruct (sidebarCollapse_click_frame (sidebar_page ["open"] ["wide"]) []
              (elem "body" [] []))
    as (w' & b' & Hrun & _ & Hb & _ & _ & Hsame); [reflexivity|].
  destruct (sidebarCollapse_click_frame (sidebar_page ["open"] ["wide"]) [1%nat]
              (elem "div" [("id", "content")] ["wide"]))
    as (w'' & e' & Hrun' & _ & He' & _ & Hother & _); [reflexivity|].
  assert (w'' = w') as ->.
  { rewrite Hrun in Hrun'. by injection Hrun'. }
  exists w', e'. split; [exact Hrun|]. split; [|split; [exact He'|]].
  - rewrite Hb. f_equal. apply Hsame; discriminate.
  - rewrite Hother; [reflexivity | discriminate].
Defined.

(** A second click undoes the first as far as classes are present: every
    element has after two clicks the classes it had, and is otherwise
    unchanged.  (The class attribute may list collapsed at another place.) *)
Theorem sidebarCollapse_click_twice (w : World) (q : path) (e : Elem) :
  elem_at (doc w) q = Some e →
  ∃ w1 w2 e2, sidebarCollapse_click w = (Ok tt, w1)
    ∧ sidebarCollapse_click w1 = (Ok tt, w2)
    ∧ alerts w2 = alerts w
    ∧ elem_at (doc w2) q = Some e2
    ∧ with_classes (classes e) e2 = e
    ∧ (∀ c, hasClass c e2 = hasClass c e).
Proof.
  intros He.
  destruct (sidebarCollapse_click_elem w q e He) as (w1 & Hrun1 & Halerts1 & He1).
  destruct (sidebarCollapse_click_elem w1 q _ He1) as (w2 & Hrun2 & Halerts2 & He2).
  eexists w1, w2, _. split; [done|]. split; [done|].
  split; [congruence|]. split; [done|].
  destruct (matches _ e) eqn:Hm.
  - assert (matches (Or (Id "sidebar") (Id "content")) (toggleClass1 "collapsed" e)
            = true) as ->.
    { etrans; [|exact Hm]. unfold toggleClass1, addClass1, removeClass1.
      by destruct (hasClass "collapsed" e). }
    split.
    + rewrite !with_classes_toggleClass1. by destruct e.
    + intros c. destruct (decide (c = "collapsed")) as [->|Hc].
      * by rewrite !hasClass_toggleClass1, negb_involutive.
      * by rewrite !hasClass_toggleClass1_ne.
  - rewrite Hm. split; [by destruct e | done].
Qed.

Lemma sidebarCollapse_click_twice_witness :
  ∃ w1 w2 e2, sidebarCollapse_click (sidebar_page ["collapsed"; "dark"] []) = (Ok tt, w1)
    ∧ sidebarCollapse_click w1 = (Ok tt, w2)
    ∧ elem_at (doc w2) [0%nat] = Some e2
    ∧ hasClass "collapsed" e2 = true ∧ hasClass "dark" e2 = true.
Proof.
  destruct (sidebarCollapse_click_twice (sidebar_page ["collapsed"; "dark"] [])
              [0%nat] (elem "nav" [("id", "sidebar")] ["collapsed"; "dark"]))
    as (w1 & w2 & e2 & Hrun1 & Hrun2 & _ & He2 & _ & Hcls); [reflexivity|].
  exists w1, w2, e2. split; [exact Hrun1|]. split; [exact Hrun2|].
  split; [exact He2|]. by rewrite !Hcls.
Defined.

(** ** The insurance-code field: frame and the file-input case *)




(** Bound to a file input that holds a file, the handler fails: the
    upper-cased value is not empty, and a file input refuses any value but
    the empty string.  Nothing is changed. *)
Theorem InsuranceCode_input_file_input {browser : Platform}
    (w : World) (this : path) (e : Elem) (file : File.t) (rest : list File.t) :
  elem_at (doc w) this = Some e → is_file_input e = true →
  files e = file :: rest →
  InsuranceCode_input this w = (Throw "InvalidStateError", w).
Proof.
  intros He Hf Hfiles. unfold InsuranceCode_input, get_value, set_value.
  rewrite !bind_run, (elem_of_this_run _ _ _ He), Hf, Hfiles, ret_run.
  rewrite bind_run, (elem_of_this_run _ _ _ He), Hf.
  rewrite bool_decide_eq_false_2; [done|].
  by intros ?%toUpperCase_nonempty.
Qed.

Lemma InsuranceCode_input_file_input_witness :
  InsuranceCode_input [0%nat] (upload_page [File.mk "a.xls" 9])
  = (Throw "InvalidStateError", upload_page [File.mk "a.xls" 9]).
Proof.
  apply (InsuranceCode_input_file_input (upload_page [File.mk "a.xls" 9]) [0%nat]
           (mkElem "input" {["type" := "file"]} [] false "" [File.mk "a.xls" 9] [])
           (File.mk "a.xls" 9) []); reflexivity.
Defined.

(** ** The submit guard: nothing found, and a second submit *)

Lemma map_elems_id (f : path → Elem → Elem) (d : Node) :
  (∀ q e, f q e = e) → map_elems f d = d.
Proof.
  revert f. induction d as [s|e kids IH] using Node_ind; intros f Hf; simpl; [done|].
  rewrite Hf. f_equal.
  generalize 0%nat. induction IH as [|k kids Hk _ IHkids]; intros j; simpl; [done|].
  rewrite Hk by (intros; apply Hf). by rewrite IHkids.
Qed.

Lemma replace_kids_none (sel : path → bool) (new : list Node) (d : Node) :
  (∀ q, sel q = false) → replace_kids sel new d = d.
Proof.
  revert sel. induction d as [s|e kids IH] using Node_ind; intros sel Hsel; simpl; [done|].
  rewrite Hsel. f_equal.
  generalize 0%nat. induction IH as [|k kids Hk _ IHkids]; intros j; simpl; [done|].
  rewrite Hk by (intros; apply Hsel). by rewrite IHkids.
Qed.

(** The selector asks for a button element whose type attribute is
    submit, in any letter case.  When the form has no such descendant, as
    with a button that submits by default or an input of type submit, the
    handler disables nothing and leaves the page exactly as it was. *)
Theorem form_submit_nothing_found (w : World) (this : path) :
  (∀ r b, r ≠ [] → elem_at (doc w) (this ++ r) = Some b →
          ¬ (tag b = "button"
             ∧ toLowerCase <$> attrs b !! "type" = Some "submit")) →
  form_submit this w = (Ok tt, w).
Proof.
  intros Hnone.
  assert (Hempty : ∀ q, bool_decide (q ∈ submit_buttons w this) = false).
  { intros q. apply bool_decide_eq_false_2.
    intros (r & b & -> & Hr & Hb & Hm)%elem_of_find1.
    apply (Hnone r b Hr Hb). by apply matches_submit_button. }
  rewrite form_submit_run. f_equal.
  rewrite replace_kids_none by done.
  rewrite map_elems_id; [by destruct w|].
  intros q e. by rewrite Hempty.
Qed.

Lemma form_submit_nothing_found_witness :
  form_submit [] plain_button_page = (Ok tt, plain_button_page).
Proof.
  apply form_submit_nothing_found.
  intros r b Hr Hb [Ht Ha].
  destruct r as [|[|[|i]] r]; [exact (Hr eq_refl)| | |].
  - destruct r as [|[|j] r].
    + vm_compute in Hb. injection Hb as <-. vm_compute in Ha. discriminate Ha.
    + destruct r; vm_compute in Hb; discriminate Hb.
    + vm_compute in Hb. discriminate Hb.
  - destruct r as [|j r].
    + vm_compute in Hb. injection Hb as <-. discriminate Ht.
    + vm_compute in Hb. discriminate Hb.
  - vm_compute in Hb. discriminate Hb.
Defined.

Lemma set_disabled_idemp (e : Elem) :
  set_disabled true (set_disabled true e) = set_disabled true e.
Proof. unfold set_disabled, with_attrs, with_disabled; simpl. by rewrite insert_insert_eq. Qed.

Lemma matches_submit_set_disabled (e : Elem) :
  matches (TagAttr "button" "type" "submit") (set_disabled true e)
  = matches (TagAttr "button" "type" "submit") e.
Proof.
  destruct (matches _ e) eqn:Hm.
  - apply matches_submit_button in Hm as [Ht Ha]. apply matches_submit_button.
    split; [done|]. simpl. by rewrite lookup_insert_ne.
  - apply not_true_iff_false. intros [Ht Ha]%matches_submit_button.
    apply not_true_iff_false in Hm. apply Hm, matches_submit_button.
    split; [done|]. simpl in Ha. by rewrite lookup_insert_ne in Ha.
Qed.

Lemma form_submit_button (w : World) (this q : path) (b : Elem) :
  q ∈ submit_buttons w this →
  elem_at (doc w) q = Some b →
  (∀ q', q' ∈ submit_buttons w this → q' `prefix_of` q → q' = q) →
  ∃ w', form_submit this w = (Ok tt, w')
    ∧ alerts w' = alerts w
    ∧ node_at (doc w') q = Some (El (set_disabled true b) processing_markup)
    ∧ q ∈ submit_buttons w' this
    ∧ (∀ q', q' ∈ submit_buttons w' this → q' `prefix_of` q → q' = q).
Proof.
  intros Hq Hb Hout. eexists. split; [apply form_submit_run|]. split; [done|].
  cbn [doc].
  set (d1 := map_elems _ (doc w)).
  set (sel := λ q0 : path, bool_decide (q0 ∈ submit_buttons w this)).
  assert (Hnode : node_at (replace_kids sel processing_markup d1) q
                  = Some (El (set_disabled true b) processing_markup)).
  { apply node_at_replace_kids.
    - unfold d1. rewrite elem_at_map_elems, Hb. cbn [fmap option_fmap option_map].
      by rewrite bool_decide_eq_true_2.
    - by apply bool_decide_eq_true_2.
    - intros q' Hpre Hq'%bool_decide_eq_true_1. by apply Hout. }
  split; [done|].
  assert (Helem : elem_at (replace_kids sel processing_markup d1) q
                  = Some (set_disabled true b)).
  { unfold elem_at. by rewrite Hnode. }
  pose proof Hq as (r & b0 & Hqr & Hr & Hb0 & Hm)%elem_of_find1.
  assert (b0 = b) as -> by congruence.
  split.
  - apply elem_of_find1. exists r, (set_disabled true b).
    split_and!; [done..|]. by rewrite matches_submit_set_disabled.
  - intros q' (r' & b' & Hq'r & Hr' & Hb' & Hm')%elem_of_find1 Hpre.
    destruct (decide (q' = q)) as [|Hne]; [done|]. exfalso.
    assert (Hnotin : q' ∉ submit_buttons w this) by (intros Hin; by apply Hne, Hout).
    cbn [doc] in Hb'. rewrite elem_at_replace_kids in Hb'.
    + unfold d1 in Hb'. rewrite elem_at_map_elems in Hb'.
      rewrite bool_decide_eq_false_2 in Hb' by done.
      destruct (elem_at (doc w) q') as [x|] eqn:Hx; [|done].
      injection Hb' as ->. apply Hnotin, elem_of_find1. by exists r', b'.
    + intros p Hp Hpne. apply bool_decide_eq_false_2. intros Hin.
      assert (p = q) as -> by (apply Hout; [done | by etrans]).
      apply Hpne. by apply (anti_symm prefix).
Qed.

(** The handler has no way back: a second submit event finds the same
    button, leaves it disabled and gives it the same content again. *)
Theorem form_submit_again (w : World) (this q : path) (b : Elem) :
  q ∈ submit_buttons w this →
  elem_at (doc w) q = Some b →
  (∀ q', q' ∈ submit_buttons w this → q' `prefix_of` q → q' = q) →
  ∃ w1 w2 b2, form_submit this w = (Ok tt, w1)
    ∧ form_submit this w1 = (Ok tt, w2)
    ∧ node_at (doc w1) q = Some (El b2 processing_markup)
    ∧ node_at (doc w2) q = Some (El b2 processing_markup)
    ∧ disabled b2 = true
    ∧ alerts w2 = alerts w.
Proof.
  intros Hq Hb Hout.
  destruct (form_submit_button w this q b Hq Hb Hout)
    as (w1 & Hrun1 & Halerts1 & Hnode1 & Hq1 & Hout1).
  assert (Hb1 : elem_at (doc w1) q = Some (set_disabled true b)).
  { unfold elem_at. by rewrite Hnode1. }
  destruct (form_submit_button w1 this q _ Hq1 Hb1 Hout1)
    as (w2 & Hrun2 & Halerts2 & Hnode2 & _ & _).
  rewrite set_disabled_idemp in Hnode2.
  exists w1, w2, (set_disabled true b).
  split; [done|]. split; [done|]. split; [done|]. split; [done|].
  split; [done | congruence].
Qed.

Lemma form_submit_again_witness :
  ∃ w1 w2 b2, form_submit [0%nat] form_page = (Ok tt, w1)
    ∧ form_submit [0%nat] w1 = (Ok tt, w2)
    ∧ node_at (doc w2) [0%nat; 1%nat] = Some (El b2 processing_markup)
    ∧ disabled b2 = true.
Proof.
  destruct (form_submit_again form_page [0%nat] [0%nat; 1%nat]
              (elem "button" [("type", "submit")] ["btn"]))
    as (w1 & w2 & b2 & Hrun1 & Hrun2 & _ & Hnode & Hdis & _).
  - apply list_elem_of_here.
  - reflexivity.
  - intros q' Hq' _. apply list_elem_of_singleton in Hq'. exact Hq'.
  - exists w1, w2, b2. split; [exact Hrun1|]. split; [exact Hrun2|].
    split; [exact Hnode | exact Hdis].
Defined.

(** ** The password toggle: scope, frame and period *)

Lemma head_filter_countdown {A} (P : A → Prop) `{∀ x, Decision (P x)}
    (f : nat → A) (n : nat) (g : A) :
  head (filter P (f <$> reverse (seq 0 (S n)))) = Some g →
  ∃ k : nat, (k ≤ n)%nat ∧ g = f k ∧ P (f k) ∧ ∀ m : nat, (k < m ≤ n)%nat → ¬ P (f m).
Proof.
  induction n as [|n IH].
  - change (f <$> reverse (seq 0 1)) with [f 0%nat].
    destruct (decide (P (f 0%nat))) as [HP|HP].
    + rewrite filter_cons_True by done. intros [= <-].
      exists 0%nat. split_and!; [done..|]. intros m ?. lia.
    + rewrite filter_cons_False by done. done.
  - rewrite seq_S, reverse_snoc, fmap_cons. cbn [Nat.add].
    destruct (decide (P (f (S n)))) as [HP|HP].
    + rewrite filter_cons_True by done. intros [= <-].
      exists (S n). split_and!; [done..|]. intros m ?. lia.
    + rewrite filter_cons_False by done. intros (k & Hk & -> & HPk & Hlast)%IH.
      exists k. split_and!; [lia|done..|].
      intros m Hm. destruct (decide (m = S n)) as [->|]; [done|].
      apply Hlast. lia.
Qed.

Lemma closest1_Some (d : Node) (s : Selector) (p g : path) :
  closest1 d s p = Some g →
  g `prefix_of` p ∧ matches_at d s g = true
  ∧ ∀ g', g `prefix_of` g' → g' `prefix_of` p → matches_at d s g' = true → g' = g.
Proof.
  unfold closest1, self_and_ancestors.
  intros (k & Hk & -> & Hm & Hlast)%head_filter_countdown.
  split; [apply prefix_take|]. split; [done|].
  intros g' Hg Hg' Hm'.
  pose proof (prefix_length _ _ Hg) as Hlen. rewrite length_take_le in Hlen by done.
  pose proof (prefix_length _ _ Hg') as Hlen'.
  destruct Hg' as [x ->].
  destruct (decide (k < length g')%nat) as [Hlt|Hge].
  - destruct (Hlast (length g')); [lia|]. by rewrite take_app_length.
  - assert (k = length g') as -> by lia. by rewrite take_app_length.
Qed.

Lemma with_classes_toggleClasses (cs l : list string) (e : Elem) :
  with_classes cs (toggleClasses l e) = with_classes cs e.
Proof.
  unfold toggleClasses. revert e. induction l as [|c l IH]; intros e; [done|].
  cbn [foldl]. by rewrite IH, with_classes_toggleClass1.
Qed.

Lemma attrs_click_effect_full (inputs icons : jQ) (ty : string) (q : path) (e : Elem) :
  attrs (click_effect inputs icons ty q e)
  = if bool_decide (q ∈ inputs) then <["type" := ty]> (attrs e) else attrs e.
Proof.
  unfold click_effect. cbv zeta.
  assert (∀ x, attrs (if bool_decide (q ∈ icons)
                      then toggleClasses ["fa-eye"; "fa-eye-slash"] x else x)
               = attrs x) as ->.
  { intros x. destruct (bool_decide _); [apply attrs_toggleClasses | done]. }
  by destruct (bool_decide (q ∈ inputs)).
Qed.

Lemma classes_click_effect (inputs icons : jQ) (ty : string) (q : path) (e : Elem) :
  q ∉ icons → classes (click_effect inputs icons ty q e) = classes e.
Proof.
  intros Hq. unfold click_effect. cbv zeta.
  rewrite (bool_decide_eq_false_2 (q ∈ icons)) by done.
  by destruct (bool_decide _).
Qed.

Lemma click_effect_fields (inputs icons : jQ) (ty : string) (q : path) (e : Elem) :
  with_classes (classes e) (with_attrs (attrs e) (click_effect inputs icons ty q e)) = e.
Proof.
  unfold click_effect. cbv zeta.
  set (e1 := if bool_decide (q ∈ inputs) then _ else e).
  assert (with_attrs (attrs e) e1 = e) as He1.
  { unfold e1. destruct (bool_decide _); by destruct e. }
  assert (∀ x, with_classes (classes e) (with_attrs (attrs e) x)
               = with_attrs (attrs e) (with_classes (classes e) x)) as Hswap by done.
  destruct (bool_decide (q ∈ icons)).
  - rewrite Hswap, with_classes_toggleClasses, <-Hswap, He1. by destruct e.
  - rewrite He1. by destruct e.
Qed.

(** A click never fails and shows no alert.  Of any element it changes at
    most the type attribute and the presence of fa-eye and fa-eye-slash.
    An element whose attributes change is an input strictly inside the
    nearest element with class input-group among the toggle and its
    ancestors; one whose classes change is an i element strictly inside
    the toggle.  Inputs of an outer group or elsewhere keep their type. *)
Theorem toggle_password_click_frame (w : World) (this q : path) (e : Elem) :
  elem_at (doc w) q = Some e →
  ∃ w' e', toggle_password_click this w = (Ok tt, w')
    ∧ alerts w' = alerts w
    ∧ elem_at (doc w') q = Some e'
    ∧ with_classes (classes e) (with_attrs (attrs e) e') = e
    ∧ (∀ a, a ≠ "type" → attrs e' !! a = attrs e !! a)
    ∧ (∀ c, c ≠ "fa-eye" → c ≠ "fa-eye-slash" → hasClass c e' = hasClass c e)
    ∧ (attrs e' ≠ attrs e →
       tag e = "input"
       ∧ ∃ g, g `prefix_of` this ∧ g `prefix_of` q ∧ q ≠ g
           ∧ matches_at (doc w) (Class "input-group") g = true
           ∧ ∀ g', g `prefix_of` g' → g' `prefix_of` this →
                   matches_at (doc w) (Class "input-group") g' = true → g' = g)
    ∧ (classes e' ≠ classes e →
       tag e = "i" ∧ this `prefix_of` q ∧ q ≠ this).
Proof.
  intros He.
  destruct (toggle_password_click_spec w this) as (w' & Hrun & [Halerts Hstep] & _ & _).
  eexists w', _. split; [done|]. split; [done|].
  split; [by rewrite Hstep, He|].
  split; [apply click_effect_fields|]. split; [|split; [|split]].
  - intros a Ha. rewrite attrs_click_effect_full.
    destruct (bool_decide _); [by apply lookup_insert_ne | done].
  - intros c Hc1 Hc2. rewrite hasClass_click_effect.
    rewrite (bool_decide_eq_false_2 (c = _ ∨ c = _)) by by intros [?|?].
    by rewrite andb_false_r.
  - intros Hattrs. rewrite attrs_click_effect_full in Hattrs.
    destruct (decide (q ∈ password_inputs w this)) as [Hq|Hq];
      [|by rewrite bool_decide_eq_false_2 in Hattrs].
    unfold password_inputs in Hq. apply list_elem_of_bind in Hq as (g & Hfind & Hg).
    apply elem_of_find1 in Hfind as (r & e0 & -> & Hr & He0 & Hm).
    assert (e0 = e) as -> by congruence.
    split; [simpl in Hm; by apply bool_decide_eq_true_1 in Hm|].
    destruct (closest1 (doc w) (Class "input-group") this) as [g0|] eqn:Hclosest;
      [|by apply elem_of_nil in Hg].
    apply list_elem_of_singleton in Hg as ->.
    apply closest1_Some in Hclosest as (Hpre & Hmatch & Hnear).
    exists g0. split; [done|]. split; [by apply prefix_app_r|].
    split; [|done].
    intros Heq. apply Hr. apply (app_inv_head g0). by rewrite app_nil_r.
  - intros Hclasses.
    destruct (decide (q ∈ password_icons w this)) as [Hq|Hq];
      [|by rewrite classes_click_effect in Hclasses].
    apply elem_of_find1 in Hq as (r & e0 & -> & Hr & He0 & Hm).
    assert (e0 = e) as -> by congruence.
    split; [simpl in Hm; by apply bool_decide_eq_true_1 in Hm|].
    split; [by apply prefix_app_r|].
    intros Heq. apply Hr. apply (app_inv_head this). by rewrite app_nil_r.
Qed.

Lemma toggle_password_click_frame_witness :
  ∃ w' e', toggle_password_click [1%nat; 1%nat] nested_group_page = (Ok tt, w')
    ∧ elem_at (doc w') [0%nat] = Some e'
    ∧ attrs e' !! "type" = Some "text".
Proof.
  destruct (toggle_password_click_frame nested_group_page [1%nat; 1%nat] [0%nat]
              (elem "input" [("type", "text")] []))
    as (w' & e' & Hrun & _ & He' & _ & _ & _ & Hscope & _); [reflexivity|].
  exists w', e'. split; [exact Hrun|]. split; [exact He'|].
  destruct (decide (attrs e' = attrs (elem "input" [("type", "text")] [])))
    as [-> | Hne]; [reflexivity|].
  exfalso. destruct (Hscope Hne) as (_ & g & Hthis & Hq & Hneq & _ & Hnear).
  assert (g = []) as ->.
  { destruct Hq as [x Hx]. destruct g as [|i g]; [reflexivity|].
    injection Hx as <- Hx. destruct g; [|discriminate Hx]. by destruct Hneq. }
  specialize (Hnear [1%nat]). discriminate Hnear.
  - apply prefix_nil.
  - by exists [1%nat].
  - reflexivity.
Defined.

(** From the first click on the toggle has period two: the third click
    leaves every element with the attributes and the classes the first
    click gave it, whatever the type of the inputs was at the start. *)
Theorem toggle_password_click_period (w : World) (this q : path) (e : Elem) :
  elem_at (doc w) q = Some e →
  ∃ w1 w2 w3 e1 e3,
    toggle_password_click this w = (Ok tt, w1)
    ∧ toggle_password_click this w1 = (Ok tt, w2)
    ∧ toggle_password_click this w2 = (Ok tt, w3)
    ∧ elem_at (doc w1) q = Some e1 ∧ elem_at (doc w3) q = Some e3
    ∧ attrs e3 = attrs e1
    ∧ (∀ c, hasClass c e3 = hasClass c e1)
    ∧ (q ∈ password_inputs w this →
       attrs e1 !! "type" = Some "password" ∨ attrs e1 !! "type" = Some "text").
Proof.
  intros He.
  destruct (toggle_password_click_spec w this)
    as (w1 & Hrun1 & Hsteps1 & Hinputs1 & Hicons1).
  destruct (toggle_password_click_spec w1 this)
    as (w2 & Hrun2 & Hsteps2 & Hinputs2 & Hicons2).
  destruct (toggle_password_click_spec w2 this)
    as (w3 & Hrun3 & Hsteps3 & _ & _).
  pose proof Hsteps1 as [_ Hstep1]. pose proof Hsteps2 as [_ Hstep2].
  pose proof Hsteps3 as [_ Hstep3].
  eexists w1, w2, w3, _, _. split; [done|]. split; [done|]. split; [done|].
  split; [by rewrite Hstep1, He|].
  split; [by rewrite Hstep3, Hstep2, Hstep1, He|].
  rewrite Hinputs2, Hicons2, !Hinputs1, !Hicons1.
  split; [|split].
  - rewrite !attrs_click_effect_full.
    destruct (decide (q ∈ password_inputs w this)) as [Hq|Hq].
    + rewrite !bool_decide_eq_true_2 by done. rewrite !insert_insert_eq. f_equal.
      assert (Hq1 : q ∈ password_inputs w1 this) by by rewrite Hinputs1.
      rewrite (first_type_after w1 w2 this q _ _ Hsteps2 Hinputs2 Hq1).
      rewrite (first_type_after w w1 this q _ _ Hsteps1 Hinputs1 Hq).
      unfold toggled_type. by repeat case_bool_decide.
    + by rewrite !bool_decide_eq_false_2 by done.
  - intros c. rewrite !hasClass_click_effect.
    destruct (bool_decide (q ∈ _) && bool_decide (c = _ ∨ c = _)); [|done].
    by rewrite negb_involutive.
  - intros Hq. rewrite attrs_click_effect, bool_decide_eq_true_2 by done.
    unfold toggled_type. case_bool_decide; [by right | by left].
Qed.

Lemma toggle_password_click_period_witness :
  ∃ w1 w2 w3 e1 e3,
    toggle_password_click [1%nat] (password_page [("type", "email")] ["fa-eye"])
      = (Ok tt, w1)
    ∧ toggle_password_click [1%nat] w1 = (Ok tt, w2)
    ∧ toggle_password_click [1%nat] w2 = (Ok tt, w3)
    ∧ elem_at (doc w1) [0%nat] = Some e1 ∧ elem_at (doc w3) [0%nat] = Some e3
    ∧ attrs e3 = attrs e1.
Proof.
  destruct (toggle_password_click_period
              (password_page [("type", "email")] ["fa-eye"]) [1%nat] [0%nat]
              (elem "input" [("type", "email")] ["form-control"]))
    as (w1 & w2 & w3 & e1 & e3 & Hrun1 & Hrun2 & Hrun3 & He1 & He3 & Hattrs & _);
    [reflexivity|].
  exists w1, w2, w3, e1, e3. split; [exact Hrun1|]. split; [exact Hrun2|].
  split; [exact Hrun3|]. split; [exact He1|]. split; [exact He3 | exact Hattrs].
Defined.

(** ** Pages without the elements the script looks for *)

Lemma select_nil (pred : Elem → bool) (d : Node) :
  (∀ q e, elem_at d q = Some e → pred e = false) → select pred d = [].
Proof.
  intros Hnone. apply elem_of_nil_inv. intros q (e & He & Hp)%elem_of_select.
  by rewrite (Hnone q e He) in Hp.
Qed.

(** On a page without a table the initialiser does nothing at all. *)
Theorem ready_no_table (w : World) :
  (∀ q e, elem_at (doc w) q = Some e → tag e ≠ "table") →
  ready w = (Ok tt, w).
Proof.
  intros Hnone. unfold ready, jQuery. rewrite !bind_run. cbv [get_doc].
  rewrite ret_run, select_nil; [done|].
  intros q e He. simpl. by apply bool_decide_eq_false_2, (Hnone q).
Qed.

Lemma ready_no_table_witness : ready (code_page "x1") = (Ok tt, code_page "x1").
Proof.
  apply ready_no_table. intros q e He Ht.
  destruct q as [|[|i] [|j q]]; vm_compute in He;
    try discriminate He; injection He as <-; discriminate Ht.
Defined.

(** On a page with neither #sidebar nor #content a click on the collapse
    control changes nothing and raises no error. *)
Theorem sidebarCollapse_click_nothing_found (w : World) :
  (∀ q e, elem_at (doc w) q = Some e →
          attrs e !! "id" ≠ Some "sidebar" ∧ attrs e !! "id" ≠ Some "content") →
  sidebarCollapse_click w = (Ok tt, w).
Proof.
  intros Hnone. unfold sidebarCollapse_click, jQuery, toggleClass.
  rewrite !bind_run. cbv [get_doc]. rewrite ret_run, select_nil.
  - rewrite bind_run, update_elems_run, !ret_run. f_equal.
    rewrite map_elems_id; [by destruct w|].
    intros q e. by rewrite bool_decide_eq_false_2 by apply not_elem_of_nil.
  - intros q e He. destruct (Hnone q e He) as [Hs Hc]. simpl.
    by rewrite !bool_decide_eq_false_2.
Qed.

Lemma sidebarCollapse_click_nothing_found_witness :
  sidebarCollapse_click (code_page "x1") = (Ok tt, code_page "x1").
Proof.
  apply sidebarCollapse_click_nothing_found. intros q e He.
  destruct q as [|[|i] [|j q]]; vm_compute in He;
    try discriminate He; injection He as <-; split; discriminate.
Defined.
